(** * TechTrends: the data-access and observability layer of [app.py]

    A shallow embedding of [project/techtrends/app.py]: the
    [DatabaseWrapper] (scoped connections and the statement counter),
    the two repository reads [get_post] and [get_post_count], and the
    Flask view functions built on them.  The sqlite3 engine, the Flask
    request, the flash queue and the application logger are modelled as
    explicit state; Python's [return] and [raise] are modelled by the
    three-way [Flow] of a statement block. *)

From Stdlib Require Import ZArith Lia.
From stdpp Require Import base option list strings gmap pretty.

Local Open Scope Z_scope.
Set Warnings "-register-all".

(** ** Python values and exceptions *)

(** The double-quote character, for the JSON bodies and the log lines. *)
Definition dquote : string := String (Ascii.ascii_of_nat 34) EmptyString.

(** The values that travel between the program and sqlite3. *)
Inductive Value :=
| VNone
| VInt (n : Z)
| VText (s : string).

(** [str(v)], as an f-string formats a value. *)
Definition py_str (v : Value) : string :=
  match v with
  | VNone => "None"
  | VInt n => pretty n
  | VText s => s
  end.

(** The exception classes the program can meet.  [DatabaseError]
    stands for the instances of that class itself, not of its
    subclasses [OperationalError] and [ProgrammingError], so that no
    class of the list is a subclass of another one. *)
Inductive ExnClass :=
| OperationalError      (* sqlite3.OperationalError *)
| ProgrammingError      (* sqlite3.ProgrammingError *)
| DatabaseError         (* sqlite3.DatabaseError itself: a file that is no database *)
| OverflowError         (* builtin: an int that does not fit an SQLite INTEGER *)
| UnboundLocalError     (* builtin, a NameError *)
| BadRequestKeyError    (* werkzeug: the KeyError of request.form[...] *)
| BuildError            (* werkzeug: url_for of an unknown endpoint *)
| TypeError
| IndexError.

(** An exception instance: its class, its message ([str(err)]) and the
    exception that was being handled when it was raised
    ([__context__], set implicitly by Python). *)
Inductive Exn :=
| MkExn (cls : ExnClass) (msg : string) (context : option Exn).

Definition exn_class (e : Exn) : ExnClass := let 'MkExn c _ _ := e in c.
Definition exn_msg (e : Exn) : string := let 'MkExn _ m _ := e in m.
Definition exn_context (e : Exn) : option Exn := let 'MkExn _ _ c := e in c.

Definition ExnClass_eqb (a b : ExnClass) : bool :=
  match a, b with
  | OperationalError, OperationalError
  | ProgrammingError, ProgrammingError
  | DatabaseError, DatabaseError
  | OverflowError, OverflowError
  | UnboundLocalError, UnboundLocalError
  | BadRequestKeyError, BadRequestKeyError
  | BuildError, BuildError
  | TypeError, TypeError
  | IndexError, IndexError => true
  | _, _ => false
  end.

(** [isinstance(e, cls)], as an [except cls] clause tests it. *)
Definition isinstance (e : Exn) (c : ExnClass) : bool :=
  ExnClass_eqb (exn_class e) c.

(** ** The persistent store [database.db] *)

(** Modelled from the spec: the schema of the posts table,
    [posts(id PRIMARY KEY AUTOINCREMENT, title TEXT, content TEXT)];
    the schema file is not part of the sources. *)
Record Post := { p_id : Z; p_title : Value; p_content : Value }.

(** A database: the posts table ([None] when the table does not exist)
    and the AUTOINCREMENT sequence, the largest id ever handed out. *)
Record Database := { posts : option (list Post); seq : Z }.

(** The file on disk: whether it can be opened at all ([Some e]:
    [sqlite3.connect] raises [e]), whether the engine fails while it
    steps a statement over the posts table ([Some e]: it raises [e]; a
    database locked by another process or a failing disk raise an
    [OperationalError], a file that is no database a [DatabaseError]),
    and its committed contents. *)
Record Store := {
  unreachable : option Exn;
  fault : option Exn;
  committed : Database
}.

(** Modelled from the spec: AUTOINCREMENT hands out an id larger than
    every id in the table and every id handed out before. *)
Definition fresh_id (rows : list Post) (sq : Z) : Z :=
  foldr Z.max sq (p_id <$> rows) + 1.

Definition insert_post (title content : Value) (d : Database) : option Database :=
  match posts d with
  | None => None
  | Some rows =>
      let i := fresh_id rows (seq d) in
      Some {| posts := Some (rows ++ [{| p_id := i; p_title := title;
                                         p_content := content |}]);
              seq := i |}
  end.

(** ** Connections *)

(** [connection.row_factory]: the default yields plain tuples,
    [sqlite3.Row] yields rows whose fields are addressable by name. *)
Inductive RowFactory := TupleFactory | RowClass.

(** A row as the program receives it. *)
Inductive PyRow :=
| TupleRow (cells : list Value)
| NamedRow (cells : list (string * Value)).

(** A cursor: the rows still to be fetched. *)
Abbreviation Cursor := (list PyRow).

(** A connection object: open or closed, its row factory, and the
    inserts of its open transaction, not yet committed. *)
Record ConnState := {
  conn_open : bool;
  row_factory : RowFactory;
  pending : list (Value * Value)
}.

(** A connection handle: the index of the object among all the
    connection objects created so far. *)
Abbreviation Connection := nat.

(** ** The process state *)

Record DatabaseWrapper := { db_connection_count : Z }.

(** [DatabaseWrapper.__init__] *)
Definition DatabaseWrapper_init : DatabaseWrapper := {| db_connection_count := 0 |}.

Inductive LogLevel := DEBUG | INFO | FATAL.

Record World := {
  store : Store;                                (* database.db *)
  conns : list ConnState;                       (* sqlite3 connection objects *)
  db : DatabaseWrapper;                         (* the module global [db] *)
  statements : list (string * list Value);      (* every statement handed to sqlite3 *)
  flashes : list string;                        (* flask.flash queue *)
  logs : list (LogLevel * string)               (* app.logger *)
}.

Definition set_store (s : Store) (w : World) : World :=
  {| store := s; conns := conns w; db := db w; statements := statements w;
     flashes := flashes w; logs := logs w |}.
Definition set_conns (cs : list ConnState) (w : World) : World :=
  {| store := store w; conns := cs; db := db w; statements := statements w;
     flashes := flashes w; logs := logs w |}.
Definition set_db (d : DatabaseWrapper) (w : World) : World :=
  {| store := store w; conns := conns w; db := d; statements := statements w;
     flashes := flashes w; logs := logs w |}.
Definition set_statements (l : list (string * list Value)) (w : World) : World :=
  {| store := store w; conns := conns w; db := db w; statements := l;
     flashes := flashes w; logs := logs w |}.
Definition set_flashes (l : list string) (w : World) : World :=
  {| store := store w; conns := conns w; db := db w; statements := statements w;
     flashes := l; logs := logs w |}.
Definition set_logs (l : list (LogLevel * string)) (w : World) : World :=
  {| store := store w; conns := conns w; db := db w; statements := statements w;
     flashes := flashes w; logs := l |}.

(** The process as it starts on a given store: the module-level
    [db = DatabaseWrapper()], nothing opened, nothing run. *)
Definition boot (s : Store) : World :=
  {| store := s; conns := []; db := DatabaseWrapper_init; statements := [];
     flashes := []; logs := [] |}.

(** ** Statement blocks *)

(** How a block of Python statements ends: it runs to its end with a
    value, it executes [return r], or it raises. *)
Inductive Flow (R A : Type) :=
| Next (a : A)
| Return (r : R)
| Raise (e : Exn).
Arguments Next {R A} a.
Arguments Return {R A} r.
Arguments Raise {R A} e.

(** A block inside a function whose result type is [R]. *)
Definition Block (R A : Type) : Type := World -> Flow R A * World.

Definition pure {R A} (a : A) : Block R A := fun w => (Next a, w).
Definition return_ {R A} (r : R) : Block R A := fun w => (Return r, w).
Definition raise {R A} (e : Exn) : Block R A := fun w => (Raise e, w).

Definition bind {R A B} (m : Block R A) (k : A -> Block R B) : Block R B :=
  fun w =>
    match m w with
    | (Next a, w') => k a w'
    | (Return r, w') => (Return r, w')
    | (Raise e, w') => (Raise e, w')
    end.

Notation "x <- m ;; k" := (bind m (fun x => k))
  (at level 100, m at next level, right associativity).
Notation "m ;;; k" := (bind m (fun _ => k))
  (at level 100, right associativity).

(** Reading the state, and a state change that cannot fail. *)
Definition read {R A} (f : World -> A) : Block R A :=
  fun w => (Next (f w), w).

Definition modify {R} (f : World -> World) : Block R unit :=
  fun w => (Next tt, f w).

(** The body of a [def]: every path through it ends in [return] or
    [raise], so it never runs to its end. *)
Definition Body (R : Type) : Type := Block R Empty_set.

(** Calling a function from a block of another function. *)
Definition call {R R'} (body : Body R) : Block R' R :=
  fun w =>
    match body w with
    | (Next a, _) => match a with end
    | (Return r, w') => (Next r, w')
    | (Raise e, w') => (Raise e, w')
    end.

(** [try: body except cls as err: handler(err)] *)
Definition try_except {R A} (body : Block R A) (cls : ExnClass)
    (handler : Exn -> Block R A) : Block R A :=
  fun w =>
    match body w with
    | (Raise e, w') => if isinstance e cls then handler e w' else (Raise e, w')
    | other => other
    end.

(** [try: body finally: fin].  The [finally] clause runs on every way
    out of [body]; then the pending return or exception resumes.  An
    exception raised by the clause itself replaces whatever was pending,
    and Python records the exception it interrupted as its context. *)
Definition try_finally {R A} (body : Block R A) (fin : Block R unit) : Block R A :=
  fun w =>
    let '(flow, w1) := body w in
    match fin w1 with
    | (Next _, w2) => (flow, w2)
    | (Return r, w2) => (Return r, w2)
    | (Raise (MkExn c m ctx), w2) =>
        (Raise (MkExn c m (match flow with Raise e => Some e | _ => ctx end)), w2)
    end.

(** ** sqlite3 *)

(** The statements of the program, as sqlite3 understands them. *)
Inductive Statement :=
| SelectPostById
| CountPosts
| SelectPosts
| InsertPost
| ProbePosts.

(** Compiling the SQL text.  Only the five texts the program issues are
    known; any other text is rejected as a syntax error. *)
Definition prepare (sql : string) : option Statement :=
  if decide (sql = "SELECT * FROM posts WHERE id = ?") then Some SelectPostById
  else if decide (sql = "SELECT COUNT(*) FROM posts") then Some CountPosts
  else if decide (sql = "SELECT * FROM posts") then Some SelectPosts
  else if decide (sql = "INSERT INTO posts (title, content) VALUES (?, ?)") then Some InsertPost
  else if decide (sql = "SELECT 1 FROM posts LIMIT 1") then Some ProbePosts
  else None.

(** The number of [?] placeholders of a statement. *)
Definition placeholders (st : Statement) : nat :=
  match st with
  | SelectPostById => 1
  | InsertPost => 2
  | CountPosts | SelectPosts | ProbePosts => 0
  end.

Definition post_cells (p : Post) : list (string * Value) :=
  [("id", VInt (p_id p)); ("title", p_title p); ("content", p_content p)].

Definition make_row (f : RowFactory) (cells : list (string * Value)) : PyRow :=
  match f with
  | TupleFactory => TupleRow (snd <$> cells)
  | RowClass => NamedRow cells
  end.

(** [id = ?] on the integer primary key.  The program binds integers
    only; NULL equals nothing, and a text parameter is taken to match
    no id. *)
Definition id_matches (v : Value) (p : Post) : bool :=
  match v with
  | VInt n => bool_decide (p_id p = n)
  | _ => false
  end.

(** A value stored in a TEXT column: an integer is stored as its
    decimal text, text and NULL are stored as they are. *)
Definition text_affinity (v : Value) : Value :=
  match v with
  | VInt n => VText (pretty n)
  | _ => v
  end.

(** The database as a connection sees it: the committed contents and
    the inserts of its own open transaction. *)
Definition apply_pending (d : Database) (pend : list (Value * Value)) : Database :=
  foldl (fun d tc => default d (insert_post tc.1 tc.2 d)) d pend.

(** The rows a statement yields on a posts table, and the inserts it
    adds to the open transaction. *)
Definition run_statement (st : Statement) (params : list Value) (rows : list Post)
  : list (list (string * Value)) * list (Value * Value) :=
  match st, params with
  | SelectPostById, [v] => (post_cells <$> filter (fun p => id_matches v p = true) rows, [])
  | CountPosts, _ => ([[("COUNT(*)", VInt (Z.of_nat (length rows)))]], [])
  | SelectPosts, _ => (post_cells <$> rows, [])
  | InsertPost, [t; c] => ([], [(text_affinity t, text_affinity c)])
  | ProbePosts, _ => ((fun _ => [("1", VInt 1)]) <$> take 1 rows, [])
  | _, _ => ([], [])
  end.

Definition closed_database : Exn :=
  MkExn ProgrammingError "Cannot operate on a closed database." None.

(** [sqlite3.connect('database.db')]: a new connection object, or the
    error of a file that cannot be opened. *)
Definition sqlite3_connect {R} : Block R Connection :=
  fun w =>
    match unreachable (store w) with
    | Some e => (Raise e, w)
    | None =>
        (Next (length (conns w)),
         set_conns (conns w ++ [{| conn_open := true; row_factory := TupleFactory;
                                   pending := [] |}]) w)
    end.

(** [connection.row_factory = f] *)
Definition with_row_factory (connection : Connection) (f : RowFactory) (w : World) : World :=
  set_conns (alter (fun cs => {| conn_open := conn_open cs; row_factory := f;
                                 pending := pending cs |}) connection (conns w)) w.
Definition set_row_factory {R} (connection : Connection) (f : RowFactory) : Block R unit :=
  modify (with_row_factory connection f).

(** [connection.close()]: the open transaction is rolled back. *)
Definition closed (connection : Connection) (w : World) : World :=
  set_conns (alter (fun cs => {| conn_open := false; row_factory := row_factory cs;
                                 pending := [] |}) connection (conns w)) w.
Definition connection_close {R} (connection : Connection) : Block R unit :=
  modify (closed connection).

(** Whether a handle names a connection that is still open. *)
Definition is_open (connection : Connection) (w : World) : bool :=
  match conns w !! connection with
  | Some cs => conn_open cs
  | None => false
  end.

(** An integer that fits the 64 bits of an SQLite INTEGER; binding any
    other integer raises. *)
Definition in_int64 (n : Z) : Prop := - 2 ^ 63 <= n < 2 ^ 63.

Definition bindable (v : Value) : bool :=
  match v with
  | VInt n => bool_decide (in_int64 n)
  | _ => true
  end.

Definition int_too_large : Exn :=
  MkExn OverflowError "Python int too large to convert to SQLite INTEGER" None.

(** [conn.execute(sql, params)].  Every call is recorded in
    [statements].  A closed connection refuses (and so does a handle
    that names no connection object); then the text is
    compiled, which needs the posts table; then the parameters are
    counted and bound, each integer into 64 bits; then the statement is
    stepped, where a fault of the store strikes, and otherwise runs
    inside the connection's transaction. *)
Definition conn_execute {R} (conn : Connection) (sql : string) (params : list Value)
  : Block R Cursor :=
  fun w0 =>
    let w := set_statements (statements w0 ++ [(sql, params)]) w0 in
    match conns w !! conn with
    | Some cs =>
        if conn_open cs then
          match prepare sql with
          | None => (Raise (MkExn OperationalError "syntax error" None), w)
          | Some st =>
              match posts (apply_pending (committed (store w)) (pending cs)) with
              | None => (Raise (MkExn OperationalError "no such table: posts" None), w)
              | Some rows =>
                  if decide (length params = placeholders st) then
                    if forallb bindable params then
                      match fault (store w) with
                      | Some e => (Raise e, w)
                      | None =>
                          let '(result, inserts) := run_statement st params rows in
                          (Next (make_row (row_factory cs) <$> result),
                           set_conns (<[conn := {| conn_open := true;
                                                   row_factory := row_factory cs;
                                                   pending := pending cs ++ inserts |}]>
                                        (conns w)) w)
                      end
                    else (Raise int_too_large, w)
                  else
                    (Raise (MkExn ProgrammingError
                              "Incorrect number of bindings supplied." None), w)
              end
          end
        else (Raise closed_database, w)
    | None => (Raise closed_database, w)
    end.

(** [conn.commit()]: the open transaction becomes the committed
    contents of the file. *)
Definition conn_commit {R} (conn : Connection) : Block R unit :=
  fun w =>
    match conns w !! conn with
    | Some cs =>
        if conn_open cs then
          (Next tt,
           set_conns (<[conn := {| conn_open := true; row_factory := row_factory cs;
                                   pending := [] |}]> (conns w))
             (set_store {| unreachable := unreachable (store w);
                           fault := fault (store w);
                           committed := apply_pending (committed (store w)) (pending cs) |}
                        w))
        else (Raise closed_database, w)
    | None => (Raise closed_database, w)
    end.

(** [cursor.fetchone()] and [cursor.fetchall()] on a fresh cursor. *)
Definition fetchone (cur : Cursor) : option PyRow := head cur.
Definition fetchall (cur : Cursor) : list PyRow := cur.

(** [row[i]] for an integer [i], on the result of [fetchone()]. *)
Definition getitem_index {R} (row : option PyRow) (i : nat) : Block R Value :=
  match row with
  | None => raise (MkExn TypeError "'NoneType' object is not subscriptable" None)
  | Some (TupleRow cells) =>
      match cells !! i with
      | Some v => pure v
      | None => raise (MkExn IndexError "tuple index out of range" None)
      end
  | Some (NamedRow cells) =>
      match cells !! i with
      | Some kv => pure kv.2
      | None => raise (MkExn IndexError "Index out of range" None)
      end
  end.

(** [row[name]]: only a [sqlite3.Row] is addressable by name. *)
Definition getitem_name {R} (row : PyRow) (name : string) : Block R Value :=
  match row with
  | TupleRow _ =>
      raise (MkExn TypeError "tuple indices must be integers or slices, not str" None)
  | NamedRow cells =>
      match list_find (fun kv => kv.1 = name) cells with
      | Some (_, kv) => pure kv.2
      | None => raise (MkExn IndexError "No item with that key" None)
      end
  end.

(** ** Flask *)

Module HTTPStatus.
Definition OK : Z := 200.
Definition FOUND : Z := 302.
Definition NOT_FOUND : Z := 404.
Definition INTERNAL_SERVER_ERROR : Z := 500.
End HTTPStatus.

(** The request being served: [request.method] and [request.form]. *)
Record Request := { method : string; form : gmap string string }.

(** [request.form[key]] *)
Definition form_getitem {R} (request : Request) (key : string) : Block R string :=
  match form request !! key with
  | Some v => pure v
  | None => raise (MkExn BadRequestKeyError key None)
  end.

(** What a template is rendered with. *)
Inductive TemplateArg :=
| ARow (row : PyRow)
| ARows (rows : list PyRow).

(** [render_template(name, **context)].  The templates are not part of
    the sources: the page is kept as the template and its context. *)
Inductive Page := Template (name : string) (context : list (string * TemplateArg)).
Definition render_template (name : string) (context : list (string * TemplateArg)) : Page :=
  Template name context.

(** What a view function returns. *)
Inductive ViewResult :=
| Html (page : Page)                                  (* return render_template(...) *)
| HtmlStatus (page : Page) (status : Z)               (* return render_template(...), status *)
| Redirect (location : string)                        (* return redirect(location) *)
| ResponseClass (response : string) (status : Z) (mimetype : string).

(** The status code of the response Flask makes of it. *)
Definition status_code (r : ViewResult) : Z :=
  match r with
  | Html _ => HTTPStatus.OK
  | HtmlStatus _ s => s
  | Redirect _ => HTTPStatus.FOUND
  | ResponseClass _ s _ => s
  end.

(** [url_for(endpoint)] for the routes that take no argument, as the
    [@app.route] decorators declare them. *)
Definition url_for {R} (endpoint : string) : Block R string :=
  if decide (endpoint = "index") then pure "/"
  else if decide (endpoint = "about") then pure "/about"
  else if decide (endpoint = "create") then pure "/create"
  else if decide (endpoint = "healthz") then pure "/healthz"
  else if decide (endpoint = "metrics_endpoint") then pure "/metrics"
  else raise (MkExn BuildError endpoint None).

(** [flash(message)] *)
Definition flash {R} (message : string) : Block R unit :=
  modify (fun w => set_flashes (flashes w ++ [message]) w).

(** [app.logger.info(msg)] and [app.logger.fatal(msg)]; the logger
    level is DEBUG, so both are recorded. *)
Definition logger_info {R} (msg : string) : Block R unit :=
  modify (fun w => set_logs (logs w ++ [(INFO, msg)]) w).
Definition logger_fatal {R} (msg : string) : Block R unit :=
  modify (fun w => set_logs (logs w ++ [(FATAL, msg)]) w).

(** [json.dumps] of a string; the strings the program serialises are
    ASCII without control characters, so only the quote and the
    backslash need their escape. *)
Definition backslash : Ascii.ascii := Ascii.ascii_of_nat 92.

Fixpoint json_escape (s : string) : string :=
  match s with
  | EmptyString => EmptyString
  | String c s' =>
      if decide (c = Ascii.ascii_of_nat 34) then String backslash (String c (json_escape s'))
      else if decide (c = backslash) then String backslash (String c (json_escape s'))
      else String c (json_escape s')
  end.

Definition json_value (v : Value) : string :=
  match v with
  | VNone => "null"
  | VInt n => pretty n
  | VText s => dquote +:+ json_escape s +:+ dquote
  end.

Fixpoint json_items (items : list (string * Value)) : string :=
  match items with
  | [] => EmptyString
  | [(k, v)] => dquote +:+ json_escape k +:+ dquote +:+ ": " +:+ json_value v
  | (k, v) :: rest =>
      dquote +:+ json_escape k +:+ dquote +:+ ": " +:+ json_value v +:+ ", " +:+ json_items rest
  end.

(** [json.dumps(d)] of a dict, its items in insertion order. *)
Definition json_dumps (items : list (string * Value)) : string :=
  "{" +:+ json_items items +:+ "}".

(** ** [class DatabaseWrapper] *)

(** What the [finally] clause of [get_db_connection] does when the
    local [connection] was never assigned. *)
Definition unbound_connection : Exn :=
  MkExn UnboundLocalError "local variable 'connection' referenced before assignment" None.

(** [with db.get_db_connection() as conn: body].  The context manager
    is the generator

      try:
          connection = sqlite3.connect('database.db')
          connection.row_factory = sqlite3.Row
          yield connection
      finally:
          connection.close()

    and [body] runs at the [yield].  When [sqlite3.connect] raises, the
    [finally] clause still runs, with [connection] unbound. *)
Definition get_db_connection {R A} (body : Connection -> Block R A) : Block R A :=
  fun w =>
    match sqlite3_connect w with
    | (Next connection, w1) =>
        try_finally
          (set_row_factory connection RowClass ;;; body connection)
          (connection_close connection) w1
    | (Return r, w1) => try_finally (return_ r) (raise unbound_connection) w1
    | (Raise e, w1) => try_finally (raise e) (raise unbound_connection) w1
    end.

(** [DatabaseWrapper.execute(self, conn, sql, params=())] *)

Definition counted (w : World) : World :=
  set_db {| db_connection_count := db_connection_count (db w) + 1 |} w.

Definition execute (conn : Connection) (sql : string) (params : list Value) : Body Cursor :=
  modify counted ;;;                           (* self.db_connection_count += 1 *)
  cur <- conn_execute conn sql params ;;
  return_ cur.

(** ** The post repository *)

Definition get_post (post_id : Z) : Body (option PyRow) :=
  get_db_connection (fun conn =>
    let sql_query := "SELECT * FROM posts WHERE id = ?" in
    cur <- call (execute conn sql_query [VInt post_id]) ;;
    let post := fetchone cur in
    return_ post).

Definition get_post_count : Body Value :=
  get_db_connection (fun conn =>
    let sql_query := "SELECT COUNT(*) FROM posts" in
    cur <- call (execute conn sql_query []) ;;
    post_count <- getitem_index (fetchone cur) 0 ;;
    return_ post_count).

(** ** The view functions *)

Definition index : Body ViewResult :=
  get_db_connection (fun conn =>
    cur <- call (execute conn "SELECT * FROM posts" []) ;;
    let posts := fetchall cur in
    return_ (Html (render_template "index.html" [("posts", ARows posts)]))).

Definition post (post_id : Z) : Body ViewResult :=
  post <- call (get_post post_id) ;;
  match post with
  | None =>
      logger_info ("Non existing article accessed with ID: " +:+ pretty post_id) ;;;
      return_ (HtmlStatus (render_template "404.html" []) HTTPStatus.NOT_FOUND)
  | Some row =>
      title <- getitem_name row "title" ;;
      logger_info ("Article " +:+ dquote +:+ py_str title +:+ dquote +:+ " retrieved!") ;;;
      return_ (Html (render_template "post.html" [("post", ARow row)]))
  end.

Definition about : Body ViewResult :=
  logger_info "About Us retrieved!" ;;;
  return_ (Html (render_template "about.html" [])).

Definition create (request : Request) : Body ViewResult :=
  (if decide (method request = "POST") then
     title <- form_getitem request "title" ;;
     content <- form_getitem request "content" ;;
     if decide (title = EmptyString) then
       flash "Title is required!"
     else
       get_db_connection (fun conn =>
         _ <- call (execute conn "INSERT INTO posts (title, content) VALUES (?, ?)"
                            [VText title; VText content]) ;;
         conn_commit conn ;;;
         logger_info ("New article " +:+ dquote +:+ title +:+ dquote +:+ " created!") ;;;
         location <- url_for "index" ;;
         return_ (Redirect location))
   else pure tt) ;;;
  return_ (Html (render_template "create.html" [])).

Definition healthz : Body ViewResult :=
  try_except
    (get_db_connection (fun conn =>
       _ <- call (execute conn "SELECT 1 FROM posts LIMIT 1" []) ;;
       return_ (ResponseClass (json_dumps [("result", VText "OK - healthy")])
                              HTTPStatus.OK "application/json")))
    OperationalError
    (fun err =>
       logger_fatal (exn_msg err) ;;;
       return_ (ResponseClass (json_dumps [("result", VText "ERROR - unhealthy")])
                              HTTPStatus.INTERNAL_SERVER_ERROR "application/json")).

Definition metrics_endpoint : Body ViewResult :=
  post_count <- call get_post_count ;;
  count <- read (fun w => db_connection_count (db w)) ;;
  let response :=
    ResponseClass (json_dumps [("db_connection_count", VInt count);
                               ("post_count", post_count)])
                  HTTPStatus.OK "application/json" in
  return_ response.

(** The routes of the application. *)
Inductive Route :=
| GET_index
| GET_post (post_id : Z)
| GET_about
| ANY_create (request : Request)
| GET_healthz
| GET_metrics.

Definition dispatch (r : Route) : Body ViewResult :=
  match r with
  | GET_index => index
  | GET_post post_id => post post_id
  | GET_about => about
  | ANY_create request => create request
  | GET_healthz => healthz
  | GET_metrics => metrics_endpoint
  end.

(** Serving a request leaves the process in a new state, whether the
    view returned or raised; serving a list of them, one after another. *)
Definition serve (w : World) (r : Route) : World := (dispatch r w).2.
Definition serve_all (rs : list Route) (w : World) : World := foldl serve w rs.

(** * The vocabulary of the properties *)

(** A block preserves a property of the process state when the state
    it leaves satisfies it, however the block ends. *)
Definition preserves (Inv : World -> Prop) {R A} (m : Block R A) : Prop :=
  forall w, Inv w -> Inv (m w).2.

(** The counter agrees with the record of statements handed to sqlite3. *)
Definition counter_exact (w : World) : Prop :=
  db_connection_count (db w) = Z.of_nat (length (statements w)).

(** A block keeps the counter when it leaves it as it found it. *)
Definition keeps_counter {R A} (m : Block R A) : Prop :=
  forall w, db_connection_count (db (m w).2) = db_connection_count (db w).

(** A batch of calls of [db.execute], each on a connection, a text and
    its parameters; a call that raises does not stop the batch. *)
Definition execute_all (calls : list (Connection * string * list Value)) (w : World) : World :=
  foldl (fun w c => (execute c.1.1 c.1.2 c.2 w).2) w calls.

(** The connection object that a body finds at its handle: open, with
    named rows, no transaction begun. *)
Definition fresh_connection : ConnState :=
  {| conn_open := true; row_factory := RowClass; pending := [] |}.

(** The state in which the body of a [with] block starts. *)
Definition entered (w : World) : World :=
  set_conns (conns w ++ [fresh_connection]) w.

(** The store is in working order: it opens, no fault strikes, and it
    holds the posts table with the rows [rows]. *)
Definition serving (w : World) (rows : list Post) : Prop :=
  unreachable (store w) = None
  /\ posts (committed (store w)) = Some rows
  /\ fault (store w) = None.

(** The state after one [with] block that ran the statement
    [(sql, params)] and committed nothing. *)
Definition after_query (sql : string) (params : list Value) (w : World) : World :=
  {| store := store w;
     conns := conns w ++ [{| conn_open := false; row_factory := RowClass; pending := [] |}];
     db := {| db_connection_count := db_connection_count (db w) + 1 |};
     statements := statements w ++ [(sql, params)];
     flashes := flashes w;
     logs := logs w |}.

(** The row of [rows] that the lookup by id yields: the first whose id
    is [post_id], as a [sqlite3.Row]. *)
Definition found (post_id : Z) (rows : list Post) : option PyRow :=
  (fun p => NamedRow (post_cells p))
    <$> head (filter (fun p => id_matches (VInt post_id) p = true) rows).

(** The bodies of the two health responses and of the metrics response,
    character by character. *)
Definition healthy_body : string :=
  "{" +:+ dquote +:+ "result" +:+ dquote +:+ ": " +:+ dquote +:+ "OK - healthy" +:+ dquote +:+ "}".
Definition unhealthy_body : string :=
  "{" +:+ dquote +:+ "result" +:+ dquote +:+ ": " +:+ dquote +:+ "ERROR - unhealthy" +:+ dquote +:+ "}".
Definition metrics_body (count post_count : Z) : string :=
  "{" +:+ dquote +:+ "db_connection_count" +:+ dquote +:+ ": " +:+ pretty count +:+ ", "
      +:+ dquote +:+ "post_count" +:+ dquote +:+ ": " +:+ pretty post_count +:+ "}".

(** A store with two posts, a store whose posts table is missing, and
    a store whose file cannot be opened. *)
Definition two_posts : list Post :=
  [ {| p_id := 1; p_title := VText "First"; p_content := VText "one" |};
    {| p_id := 2; p_title := VText "Second"; p_content := VText "two" |} ].
Definition store_ok : Store :=
  {| unreachable := None; fault := None;
     committed := {| posts := Some two_posts; seq := 2 |} |}.
Definition store_no_table : Store :=
  {| unreachable := None; fault := None; committed := {| posts := None; seq := 0 |} |}.
Definition unable_to_open : Exn :=
  MkExn OperationalError "unable to open database file" None.
Definition store_unreachable : Store :=
  {| unreachable := Some unable_to_open; fault := None;
     committed := {| posts := Some two_posts; seq := 2 |} |}.


(** The row that [create] inserts on a table holding [rows]. *)
Definition created (d : Database) (rows : list Post) (title content : string) : Post :=
  {| p_id := fresh_id rows (seq d); p_title := VText title; p_content := VText content |}.

(** The state after [create] has handled a valid form. *)
Definition after_create (title content : string) (rows : list Post) (w : World) : World :=
  let new := created (committed (store w)) rows title content in
  {| store := {| unreachable := unreachable (store w);
                 fault := fault (store w);
                 committed := {| posts := Some (rows ++ [new]); seq := p_id new |} |};
     conns := conns w ++ [{| conn_open := false; row_factory := RowClass; pending := [] |}];
     db := {| db_connection_count := db_connection_count (db w) + 1 |};
     statements := statements w ++ [("INSERT INTO posts (title, content) VALUES (?, ?)",
                                     [VText title; VText content])];
     flashes := flashes w;
     logs := logs w ++ [(INFO, "New article " +:+ dquote +:+ title +:+ dquote +:+ " created!")] |}.

(** The inner block of [create] up to its commit, on the connection of
    the block. *)
Definition insert_and_commit (title content : string) (w : World) : World :=
  let conn := length (conns w) in
  let w1 := (execute conn "INSERT INTO posts (title, content) VALUES (?, ?)"
                     [VText title; VText content] (entered w)).2 in
  (conn_commit (R := unit) conn w1).2.

(** A creation form as the browser posts it, and forms that miss a field. *)
Definition post_form (title content : string) : Request :=
  {| method := "POST"; form := <["title" := title]> (<["content" := content]> ∅) |}.
Definition form_without_title : Request :=
  {| method := "POST"; form := <["content" := "World"]> ∅ |}.
Definition form_without_content : Request :=
  {| method := "POST"; form := <["title" := "Hello"]> ∅ |}.

(** The error of a statement on a store without posts table, and what
    reaches the caller of a [with] block whose [sqlite3.connect] raised [e]. *)
Definition no_such_table : Exn := MkExn OperationalError "no such table: posts" None.
Definition connect_failure (e : Exn) : Exn :=
  MkExn UnboundLocalError (exn_msg unbound_connection) (Some e).

(** The state with one more line in the log, one more message flashed. *)
Definition logged (level : LogLevel) (msg : string) (w : World) : World :=
  set_logs (logs w ++ [(level, msg)]) w.
Definition flashed (message : string) (w : World) : World :=
  set_flashes (flashes w ++ [message]) w.

(** A post as the [sqlite3.Row] that a select yields for it. *)
Definition named (p : Post) : PyRow := NamedRow (post_cells p).

(** The first post of [rows] whose id is [post_id]. *)
Definition first_with_id (post_id : Z) (rows : list Post) : option Post :=
  head (filter (fun p => id_matches (VInt post_id) p = true) rows).

(** The pages and log lines of the views. *)
Definition index_page (rows : list Post) : ViewResult :=
  Html (render_template "index.html" [("posts", ARows (named <$> rows))]).
Definition post_page (p : Post) : ViewResult :=
  Html (render_template "post.html" [("post", ARow (named p))]).
Definition not_found_page : ViewResult :=
  HtmlStatus (render_template "404.html" []) 404.
Definition form_page : ViewResult := Html (render_template "create.html" []).
Definition retrieved_line (p : Post) : string :=
  "Article " +:+ dquote +:+ py_str (p_title p) +:+ dquote +:+ " retrieved!".
Definition missing_line (post_id : Z) : string :=
  "Non existing article accessed with ID: " +:+ pretty post_id.

(** A post with a title that is a non-empty text. *)
Definition titled (p : Post) : Prop :=
  exists t, p_title p = VText t /\ t <> EmptyString.

(** The posts table of the store of a state. *)
Definition table (w : World) : option (list Post) := posts (committed (store w)).

(** * Properties *)

(** ** Invariants of the process state *)

(** Preservation follows the structure of a block: one rule for each
    combinator and one for each operation of sqlite3 and Flask. *)
Section Preservation.
Variable Inv : World -> Prop.

Lemma preserves_pure {R A} (a : A) : preserves Inv (@pure R A a).
Proof. intros w H. exact H. Qed.

Lemma preserves_return {R A} (r : R) : preserves Inv (@return_ R A r).
Proof. intros w H. exact H. Qed.

Lemma preserves_raise {R A} (e : Exn) : preserves Inv (@raise R A e).
Proof. intros w H. exact H. Qed.

Lemma preserves_read {R A} (f : World -> A) : preserves Inv (@read R A f).
Proof. intros w H. exact H. Qed.

Lemma preserves_modify {R} (f : World -> World) :
  (forall w, Inv w -> Inv (f w)) -> preserves Inv (@modify R f).
Proof. intros Hf w H. apply Hf, H. Qed.

Lemma preserves_bind {R A B} (m : Block R A) (k : A -> Block R B) :
  preserves Inv m -> (forall a, preserves Inv (k a)) -> preserves Inv (bind m k).
Proof.
  intros Hm Hk w H. unfold bind. specialize (Hm w H).
  destruct (m w) as [[a | r | e] w']; simpl in *; auto.
  apply Hk, Hm.
Qed.

Lemma preserves_call {R R'} (body : Body R) :
  preserves Inv body -> preserves Inv (@call R R' body).
Proof.
  intros Hb w H. unfold call. specialize (Hb w H).
  destruct (body w) as [[[] | r | e] w']; simpl in *; auto.
Qed.

Lemma preserves_try_except {R A} (body : Block R A) cls handler :
  preserves Inv body -> (forall e, preserves Inv (handler e)) ->
  preserves Inv (try_except body cls handler).
Proof.
  intros Hb Hh w H. unfold try_except. specialize (Hb w H).
  destruct (body w) as [[a | r | e] w']; simpl in *; auto.
  destruct (isinstance e cls); simpl; auto. apply Hh, Hb.
Qed.

Lemma preserves_try_finally {R A} (body : Block R A) (fin : Block R unit) :
  preserves Inv body -> preserves Inv fin -> preserves Inv (try_finally body fin).
Proof.
  intros Hb Hf w H. unfold try_finally. specialize (Hb w H).
  destruct (body w) as [flow w1]; simpl in *.
  specialize (Hf w1 Hb).
  destruct (fin w1) as [[[] | r | [c m ctx]] w2]; simpl in *; auto.
Qed.

(** The operations that touch neither the counter nor the statement
    record preserve whatever is said about these two alone. *)
Hypothesis Inv_frame :
  forall w w', db w' = db w -> statements w' = statements w -> Inv w -> Inv w'.

Ltac framed H := eapply Inv_frame; [ | | exact H]; reflexivity.

Lemma preserves_sqlite3_connect {R} : preserves Inv (@sqlite3_connect R).
Proof.
  intros w H. unfold sqlite3_connect.
  destruct (unreachable (store w)); simpl; auto.
  framed H.
Qed.

Lemma preserves_set_row_factory {R} c f : preserves Inv (@set_row_factory R c f).
Proof. apply preserves_modify. intros w H. framed H. Qed.

Lemma preserves_connection_close {R} c : preserves Inv (@connection_close R c).
Proof. apply preserves_modify. intros w H. framed H. Qed.

Lemma preserves_conn_commit {R} c : preserves Inv (@conn_commit R c).
Proof.
  intros w H. unfold conn_commit.
  destruct (conns w !! c) as [cs |]; simpl; auto.
  destruct (conn_open cs); simpl; auto.
  framed H.
Qed.

Lemma preserves_flash {R} msg : preserves Inv (@flash R msg).
Proof. apply preserves_modify. intros w H. framed H. Qed.

Lemma preserves_logger_info {R} msg : preserves Inv (@logger_info R msg).
Proof. apply preserves_modify. intros w H. framed H. Qed.

Lemma preserves_logger_fatal {R} msg : preserves Inv (@logger_fatal R msg).
Proof. apply preserves_modify. intros w H. framed H. Qed.

Lemma preserves_form_getitem {R} request key : preserves Inv (@form_getitem R request key).
Proof.
  unfold form_getitem. destruct (form request !! key).
  - apply preserves_pure.
  - apply preserves_raise.
Qed.

Lemma preserves_url_for {R} endpoint : preserves Inv (@url_for R endpoint).
Proof.
  unfold url_for.
  repeat (case_decide; [apply preserves_pure |]). apply preserves_raise.
Qed.

Lemma preserves_getitem_index {R} row i : preserves Inv (@getitem_index R row i).
Proof.
  unfold getitem_index.
  destruct row as [[cells | cells] |]; try apply preserves_raise;
    destruct (cells !! i); (apply preserves_pure || apply preserves_raise).
Qed.

Lemma preserves_getitem_name {R} row name : preserves Inv (@getitem_name R row name).
Proof.
  unfold getitem_name. destruct row as [cells | cells]; [apply preserves_raise |].
  destruct (list_find _ cells) as [[? ?] |];
    (apply preserves_pure || apply preserves_raise).
Qed.

Lemma preserves_get_db_connection {R A} (body : Connection -> Block R A) :
  (forall conn, preserves Inv (body conn)) -> preserves Inv (get_db_connection body).
Proof.
  intros Hb w H. unfold get_db_connection.
  pose proof (@preserves_sqlite3_connect R w H) as Hc.
  destruct (sqlite3_connect w) as [[c | r | e] w1]; simpl in Hc.
  - apply preserves_try_finally; auto using preserves_connection_close.
    apply preserves_bind; auto using preserves_set_row_factory.
  - apply preserves_try_finally; auto using preserves_return, preserves_raise.
  - apply preserves_try_finally; auto using preserves_raise.
Qed.
End Preservation.

(** ** The statement counter *)

Lemma counter_exact_frame w w' :
  db w' = db w -> statements w' = statements w -> counter_exact w -> counter_exact w'.
Proof. unfold counter_exact. intros -> ->. auto. Qed.

Lemma counter_value_frame n w w' :
  db w' = db w -> statements w' = statements w ->
  db_connection_count (db w) = n -> db_connection_count (db w') = n.
Proof. intros -> _. auto. Qed.

Lemma keeps_counter_preserves {R A} (m : Block R A) :
  (forall n, preserves (fun w => db_connection_count (db w) = n) m) -> keeps_counter m.
Proof. intros H w. apply (H _ w). reflexivity. Qed.

(** What [conn.execute] does to the state besides its connection: it
    records the statement, and leaves counter and committed store alone. *)
Lemma conn_execute_state {R} conn sql params w :
  let w' := (@conn_execute R conn sql params w).2 in
  db w' = db w /\ statements w' = statements w ++ [(sql, params)] /\ store w' = store w
  /\ flashes w' = flashes w /\ logs w' = logs w.
Proof.
  unfold conn_execute. simpl.
  destruct (conns w !! conn) as [cs |]; simpl; auto.
  destruct (conn_open cs); simpl; auto.
  destruct (prepare sql) as [st |]; simpl; auto.
  destruct (posts _) as [rows |]; simpl; auto.
  case_decide; simpl; auto.
  destruct (forallb bindable params); simpl; auto.
  destruct (fault (store w)); simpl; auto.
  destruct (run_statement st params rows); simpl; auto.
Qed.

(** [execute] as one step: the counter first, then the statement, whose
    result or error is handed to the caller. *)
Lemma execute_unfold conn sql params w :
  execute conn sql params w =
    match conn_execute (R := Cursor) conn sql params (counted w) with
    | (Next cur, w') => (Return cur, w')
    | (Return r, w') => (Return r, w')
    | (Raise e, w') => (Raise e, w')
    end.
Proof.
  unfold execute, bind, modify. simpl.
  destruct (conn_execute conn sql params (counted w)) as [[cur | r | e] w']; reflexivity.
Qed.

Lemma execute_counter conn sql params w :
  db_connection_count (db (execute conn sql params w).2) = db_connection_count (db w) + 1.
Proof.
  rewrite execute_unfold.
  destruct (conn_execute_state (R := Cursor) conn sql params (counted w)) as (Hdb & _).
  destruct (conn_execute conn sql params (counted w)) as [[cur | r | e] w'];
    simpl in *; rewrite Hdb; reflexivity.
Qed.

Lemma execute_statements conn sql params w :
  statements (execute conn sql params w).2 = statements w ++ [(sql, params)].
Proof.
  rewrite execute_unfold.
  destruct (conn_execute_state (R := Cursor) conn sql params (counted w)) as (_ & Hst & _).
  destruct (conn_execute conn sql params (counted w)) as [[cur | r | e] w'];
    simpl in *; rewrite Hst; reflexivity.
Qed.

Lemma execute_counter_exact conn sql params :
  preserves counter_exact (execute conn sql params).
Proof.
  intros w H. unfold counter_exact in *.
  rewrite execute_counter, execute_statements, length_app, H. simpl. lia.
Qed.

Lemma execute_all_counter calls w :
  db_connection_count (db (execute_all calls w)) =
    db_connection_count (db w) + Z.of_nat (length calls).
Proof.
  revert w. induction calls as [| c calls IH]; intros w; simpl.
  - lia.
  - unfold execute_all in *. simpl. rewrite IH, execute_counter. lia.
Qed.

(** Breaking a block of the program into its operations: the
    combinators first, then the operations that need the frame [F] of
    the invariant, then a case split on what the block branches on. *)
Ltac preserve_step F :=
  first
    [ apply execute_counter_exact
    | apply preserves_bind; [| intros ?]
    | apply preserves_call
    | apply preserves_try_except; [| intros ?]
    | apply preserves_get_db_connection; [exact F | intros ?]
    | apply preserves_pure | apply preserves_return | apply preserves_raise
    | apply preserves_read
    | apply preserves_conn_commit; exact F
    | apply preserves_flash; exact F
    | apply preserves_logger_info; exact F
    | apply preserves_logger_fatal; exact F
    | apply preserves_form_getitem
    | apply preserves_url_for
    | apply preserves_getitem_index
    | apply preserves_getitem_name
    | progress cbv zeta
    | match goal with
      | |- preserves _ (match ?x with _ => _ end) => destruct x
      end ].
Ltac preserve F := repeat (preserve_step F).

Lemma get_post_counter_exact post_id : preserves counter_exact (get_post post_id).
Proof. unfold get_post. preserve counter_exact_frame. Qed.

Lemma get_post_count_counter_exact : preserves counter_exact get_post_count.
Proof. unfold get_post_count. preserve counter_exact_frame. Qed.

Lemma dispatch_counter_exact r : preserves counter_exact (dispatch r).
Proof.
  destruct r; simpl.
  - unfold index. preserve counter_exact_frame.
  - unfold post. preserve_step counter_exact_frame.
    + preserve_step counter_exact_frame. apply get_post_counter_exact.
    + preserve counter_exact_frame.
  - unfold about. preserve counter_exact_frame.
  - unfold create. preserve counter_exact_frame.
  - unfold healthz. preserve counter_exact_frame.
  - unfold metrics_endpoint. preserve_step counter_exact_frame.
    + preserve_step counter_exact_frame. apply get_post_count_counter_exact.
    + preserve counter_exact_frame.
Qed.

Lemma serve_all_counter_exact rs w :
  counter_exact w -> counter_exact (serve_all rs w).
Proof.
  revert w. induction rs as [| r rs IH]; intros w H; simpl; [exact H |].
  apply IH. apply dispatch_counter_exact, H.
Qed.

Lemma keeps_counter_value {R A} (m : Block R A) n :
  keeps_counter m -> preserves (fun w => db_connection_count (db w) = n) m.
Proof. intros H w Hw. rewrite H. exact Hw. Qed.

Lemma get_db_connection_keeps_counter {R A} (body : Connection -> Block R A) :
  (forall conn, keeps_counter (body conn)) -> keeps_counter (get_db_connection body).
Proof.
  intros Hb. apply keeps_counter_preserves. intros n.
  apply preserves_get_db_connection; [apply counter_value_frame |].
  intros conn. apply keeps_counter_value, Hb.
Qed.

(** ** Scoped connections *)

Lemma lookup_entered w : conns (entered w) !! length (conns w) = Some fresh_connection.
Proof. simpl. apply list_lookup_middle. reflexivity. Qed.

Lemma get_db_connection_reachable {R A} (body : Connection -> Block R A) w :
  unreachable (store w) = None ->
  get_db_connection body w =
    ((body (length (conns w)) (entered w)).1,
     closed (length (conns w)) (body (length (conns w)) (entered w)).2).
Proof.
  intros Hs. unfold get_db_connection, sqlite3_connect. rewrite Hs.
  unfold try_finally, bind, set_row_factory, connection_close, modify, with_row_factory.
  simpl conns. rewrite alter_app_r_alt by reflexivity.
  rewrite Nat.sub_diag. simpl alter.
  change (set_conns _ (set_conns _ w)) with (entered w).
  destruct (body (length (conns w)) (entered w)) as [[a | r | e] w3]; reflexivity.
Qed.

Lemma get_db_connection_unreachable {R A} (body : Connection -> Block R A) w e :
  unreachable (store w) = Some e ->
  get_db_connection body w =
    (Raise (MkExn UnboundLocalError (exn_msg unbound_connection) (Some e)), w).
Proof.
  intros Hs. unfold get_db_connection, sqlite3_connect. rewrite Hs. reflexivity.
Qed.

Lemma is_open_closed conn w : is_open conn (closed conn w) = false.
Proof.
  unfold is_open, closed. simpl.
  rewrite list_lookup_alter. case_decide; [| congruence].
  destruct (conns w !! conn); reflexivity.
Qed.

(** ** The repository on a store in working order *)

Lemma lookup_last {A} (l : list A) x : (l ++ [x]) !! length l = Some x.
Proof. apply list_lookup_middle. reflexivity. Qed.

Lemma insert_last {A} (l : list A) x y : <[length l := y]> (l ++ [x]) = l ++ [y].
Proof. rewrite insert_app_r_alt by reflexivity. rewrite Nat.sub_diag. reflexivity. Qed.

Lemma alter_last {A} (f : A -> A) (l : list A) x : alter f (length l) (l ++ [x]) = l ++ [f x].
Proof. rewrite alter_app_r_alt by reflexivity. rewrite Nat.sub_diag. reflexivity. Qed.

(** Running a [with] block of the program on a store that opens: enter
    the block, run [execute] on the connection just made, and
    bring the operations on that connection to their results. *)
Ltac enter_with Hs :=
  rewrite get_db_connection_reachable by exact Hs;
  unfold call, bind; rewrite execute_unfold; unfold conn_execute;
  simpl conns; rewrite lookup_last.
Ltac leave_with :=
  unfold closed, conn_commit;
  repeat (progress (simpl; rewrite ?insert_last, ?alter_last, ?lookup_last)).

Lemma get_post_count_serving w rows :
  serving w rows ->
  get_post_count w =
    (Return (VInt (Z.of_nat (length rows))), after_query "SELECT COUNT(*) FROM posts" [] w).
Proof.
  intros (Hs & Hp & Hf). unfold get_post_count. enter_with Hs.
  simpl. rewrite Hp. simpl. rewrite Hf. leave_with. reflexivity.
Qed.

Lemma bindable_int n : in_int64 n -> forallb bindable [VInt n] = true.
Proof. intros H. simpl. rewrite bool_decide_eq_true_2 by exact H. reflexivity. Qed.

Lemma unbindable_int n : ~ in_int64 n -> forallb bindable [VInt n] = false.
Proof. intros H. simpl. rewrite bool_decide_eq_false_2 by exact H. reflexivity. Qed.

Lemma get_post_serving post_id w rows :
  serving w rows ->
  in_int64 post_id ->
  get_post post_id w =
    (Return (found post_id rows),
     after_query "SELECT * FROM posts WHERE id = ?" [VInt post_id] w).
Proof.
  intros (Hs & Hp & Hf) Hid. unfold get_post. enter_with Hs.
  simpl. rewrite Hp. simpl. rewrite (bool_decide_eq_true_2 _ Hid). simpl. rewrite Hf.
  leave_with.
  f_equal. f_equal. unfold found, fetchone.
  destruct (filter _ rows); reflexivity.
Qed.

Lemma serving_after_query sql params w rows :
  serving w rows -> serving (after_query sql params w) rows.
Proof. intros H. exact H. Qed.

Lemma id_matches_int post_id p : id_matches (VInt post_id) p = true <-> p_id p = post_id.
Proof. simpl. apply bool_decide_eq_true. Qed.

Lemma found_present post_id rows p :
  p ∈ rows -> p_id p = post_id -> NoDup (p_id <$> rows) ->
  found post_id rows = Some (NamedRow (post_cells p)).
Proof.
  intros Hin Hid Hnd. unfold found.
  induction rows as [| q rows IH]; [inversion Hin |].
  rewrite fmap_cons in Hnd. apply NoDup_cons in Hnd as [Hq Hnd].
  rewrite filter_cons. case_decide as Hm.
  - simpl. apply id_matches_int in Hm.
    apply elem_of_cons in Hin as [-> | Hin]; [reflexivity |].
    exfalso. apply Hq. rewrite Hm, <- Hid.
    apply list_elem_of_fmap. exists p. auto.
  - apply elem_of_cons in Hin as [-> | Hin].
    + exfalso. apply Hm. apply id_matches_int, Hid.
    + apply IH; assumption.
Qed.

Lemma found_absent post_id rows :
  (forall p, p ∈ rows -> p_id p <> post_id) -> found post_id rows = None.
Proof.
  intros Hno. unfold found.
  induction rows as [| q rows IH]; [reflexivity |].
  rewrite filter_cons. case_decide as Hm.
  - exfalso. apply (Hno q); [left | apply id_matches_int, Hm].
  - apply IH. intros p Hp. apply Hno. right. exact Hp.
Qed.

(** What [get_post_count] hands back, on every store. *)
Lemma get_post_count_result w :
  (get_post_count w).1 =
    match unreachable (store w), posts (committed (store w)), fault (store w) with
    | Some e, _, _ => Raise (MkExn UnboundLocalError (exn_msg unbound_connection) (Some e))
    | None, Some rows, None => Return (VInt (Z.of_nat (length rows)))
    | None, Some rows, Some e => Raise e
    | None, None, _ => Raise (MkExn OperationalError "no such table: posts" None)
    end.
Proof.
  destruct (unreachable (store w)) as [e |] eqn:Hs.
  - unfold get_post_count. rewrite (get_db_connection_unreachable _ w e Hs). reflexivity.
  - destruct (posts (committed (store w))) as [rows |] eqn:Hp.
    + destruct (fault (store w)) as [e |] eqn:Hf.
      * unfold get_post_count. enter_with Hs. simpl. rewrite Hp. simpl. rewrite Hf.
        reflexivity.
      * rewrite (get_post_count_serving w rows); [reflexivity | repeat split; assumption].
    + unfold get_post_count. enter_with Hs. simpl. rewrite Hp. reflexivity.
Qed.

Lemma append_assoc (s1 s2 s3 : string) : (s1 +:+ s2) +:+ s3 = s1 +:+ (s2 +:+ s3).
Proof.
  induction s1 as [| c s1 IH]; [reflexivity |].
  change (String c ((s1 +:+ s2) +:+ s3) = String c (s1 +:+ (s2 +:+ s3))).
  rewrite IH. reflexivity.
Qed.

Lemma json_dumps_healthy : json_dumps [("result", VText "OK - healthy")] = healthy_body.
Proof. reflexivity. Qed.

Lemma json_dumps_unhealthy : json_dumps [("result", VText "ERROR - unhealthy")] = unhealthy_body.
Proof. reflexivity. Qed.

Lemma json_dumps_metrics n m :
  json_dumps [("db_connection_count", VInt n); ("post_count", VInt m)] = metrics_body n m.
Proof.
  unfold json_dumps, metrics_body. simpl.
  rewrite !append_assoc. reflexivity.
Qed.


(** ** The properties of the specification *)

(** C1: the counter counts the calls of [DatabaseWrapper.execute] and
    nothing else.  Every call adds exactly one, whatever the statement
    and whether it succeeds; a batch of N calls that starts at 0 ends at
    N; opening, configuring, committing and closing a connection,
    flashing, logging, reading the form and building a URL leave the
    counter alone, and so does a [with] block whose body does; and
    however many requests the application has served since it started,
    the counter is the number of statements handed to sqlite3. *)
Theorem db_connection_count_counts_execute :
  (forall conn sql params w,
      db_connection_count (db (execute conn sql params w).2) = db_connection_count (db w) + 1)
  /\ (forall calls w,
         db_connection_count (db w) = 0 ->
         db_connection_count (db (execute_all calls w)) = Z.of_nat (length calls))
  /\ (forall R,
         keeps_counter (@sqlite3_connect R)
         /\ (forall conn f, keeps_counter (@set_row_factory R conn f))
         /\ (forall conn, keeps_counter (@conn_commit R conn))
         /\ (forall conn, keeps_counter (@connection_close R conn))
         /\ (forall message, keeps_counter (@flash R message))
         /\ (forall msg, keeps_counter (@logger_info R msg))
         /\ (forall msg, keeps_counter (@logger_fatal R msg))
         /\ (forall request key, keeps_counter (@form_getitem R request key))
         /\ (forall endpoint, keeps_counter (@url_for R endpoint))
         /\ (forall A (body : Connection -> Block R A),
                (forall conn, keeps_counter (body conn)) ->
                keeps_counter (get_db_connection body)))
  /\ (forall s rs, counter_exact (serve_all rs (boot s))).
Proof.
  split; [exact execute_counter |].
  split; [intros calls w H; rewrite execute_all_counter, H; lia |].
  split.
  - intros R.
    split; [apply keeps_counter_preserves; intros n;
            apply preserves_sqlite3_connect, counter_value_frame |].
    split; [intros conn f; apply keeps_counter_preserves; intros n;
            apply preserves_set_row_factory, counter_value_frame |].
    split; [intros conn; apply keeps_counter_preserves; intros n;
            apply preserves_conn_commit, counter_value_frame |].
    split; [intros conn; apply keeps_counter_preserves; intros n;
            apply preserves_connection_close, counter_value_frame |].
    split; [intros message; apply keeps_counter_preserves; intros n;
            apply preserves_flash, counter_value_frame |].
    split; [intros msg; apply keeps_counter_preserves; intros n;
            apply preserves_logger_info, counter_value_frame |].
    split; [intros msg; apply keeps_counter_preserves; intros n;
            apply preserves_logger_fatal, counter_value_frame |].
    split; [intros request key; apply keeps_counter_preserves; intros n;
            apply preserves_form_getitem |].
    split; [intros endpoint; apply keeps_counter_preserves; intros n;
            apply preserves_url_for |].
    intros A body Hb. apply get_db_connection_keeps_counter, Hb.
  - intros s rs. apply serve_all_counter_exact. reflexivity.
Qed.

(** Three statements on one open connection of a started process: a
    select, an insert and the health probe. *)
Lemma db_connection_count_counts_execute_witness :
  db_connection_count
    (db (execute_all
           [(0%nat, "SELECT * FROM posts", []);
            (0%nat, "INSERT INTO posts (title, content) VALUES (?, ?)",
              [VText "Hello"; VText "World"]);
            (0%nat, "SELECT 1 FROM posts LIMIT 1", [])]
           (entered (boot store_ok)))) = 3.
Proof.
  apply (proj1 (proj2 db_connection_count_counts_execute)). reflexivity.
Defined.




(** C3: what the code does when the open step fails.  On a store whose
    file cannot be opened, whatever the body of the [with] block, the
    acquiring operation does not receive the error of
    [sqlite3.connect]: the [finally] clause runs [connection.close()]
    with [connection] never assigned, and the UnboundLocalError of that
    line is what arrives, the error of the open step being kept only as
    its context. *)
Theorem get_db_connection_replaces_open_error {R A} (body : Connection -> Block R A) :
  get_db_connection body (boot store_unreachable)
    = (Raise (connect_failure unable_to_open), boot store_unreachable)
  /\ exn_class (connect_failure unable_to_open) = UnboundLocalError
  /\ exn_context (connect_failure unable_to_open) = Some unable_to_open
  /\ (forall w', get_db_connection body (boot store_unreachable) <> (Raise unable_to_open, w')).
Proof.
  rewrite (get_db_connection_unreachable body (boot store_unreachable) unable_to_open eq_refl).
  repeat split. intros w' H. discriminate H.
Qed.

Lemma get_post_too_large post_id w rows :
  unreachable (store w) = None ->
  posts (committed (store w)) = Some rows ->
  ~ in_int64 post_id ->
  get_post post_id w =
    (Raise int_too_large, after_query "SELECT * FROM posts WHERE id = ?" [VInt post_id] w).
Proof.
  intros Hs Hp Hid. unfold get_post. enter_with Hs.
  simpl. rewrite Hp. simpl. rewrite (bool_decide_eq_false_2 _ Hid). simpl.
  leave_with. reflexivity.
Qed.

(** C4, as stated: for every post id without a row, [get_post] returns
    [None] and never raises.  It raises for an id that does not fit 64
    bits: sqlite3 refuses to bind it. *)
Lemma get_post_raises_on_a_large_id :
  ~ (forall post_id w rows,
       serving w rows -> (forall p, p ∈ rows -> p_id p <> post_id) ->
       (get_post post_id w).1 = Return None).
Proof.
  intros H. specialize (H (2 ^ 63) (boot store_ok) two_posts).
  rewrite (get_post_too_large (2 ^ 63) (boot store_ok) two_posts eq_refl eq_refl) in H
    by (unfold in_int64; lia).
  assert (Raise (R := option PyRow) (A := Empty_set) int_too_large = Return None) as Hx;
    [| discriminate Hx].
  apply H; [repeat split |].
  intros p Hp. unfold two_posts in Hp.
  apply elem_of_cons in Hp as [-> | Hp]; [simpl; lia |].
  apply elem_of_cons in Hp as [-> | Hp]; [simpl; lia |].
  inversion Hp.
Qed.

(** C4, amended: on a store in working order, for every post id that
    fits the 64 bits of an SQLite INTEGER, [get_post] returns the row
    whose id is the one asked for when the table has one (ids are a
    primary key, so there is one at most), and returns [None], without
    raising, when it has none; for an id that does not fit, binding it
    raises OverflowError.  In every case the statement handed to
    sqlite3 is the constant text with its [?] placeholder, and the id
    travels beside it as the bound parameter. *)
Theorem get_post_by_id (post_id : Z) (w : World) (rows : list Post) :
  serving w rows ->
  (in_int64 post_id ->
   (forall p, p ∈ rows -> p_id p = post_id -> NoDup (p_id <$> rows) ->
      (get_post post_id w).1 = Return (Some (NamedRow (post_cells p))))
   /\ ((forall p, p ∈ rows -> p_id p <> post_id) ->
       (get_post post_id w).1 = Return None))
  /\ (~ in_int64 post_id -> (get_post post_id w).1 = Raise int_too_large)
  /\ statements (get_post post_id w).2 =
       statements w ++ [("SELECT * FROM posts WHERE id = ?", [VInt post_id])].
Proof.
  intros Hw. split; [| split].
  - intros Hid. rewrite (get_post_serving post_id w rows Hw Hid). simpl. split.
    + intros p Hin Hp Hnd. rewrite (found_present post_id rows p Hin Hp Hnd). reflexivity.
    + intros Hno. rewrite (found_absent post_id rows Hno). reflexivity.
  - intros Hid. destruct Hw as (Hs & Hp & _).
    rewrite (get_post_too_large post_id w rows Hs Hp Hid). reflexivity.
  - destruct (decide (in_int64 post_id)) as [Hid | Hid].
    + rewrite (get_post_serving post_id w rows Hw Hid). reflexivity.
    + destruct Hw as (Hs & Hp & _).
      rewrite (get_post_too_large post_id w rows Hs Hp Hid). reflexivity.
Qed.

Lemma get_post_by_id_witness :
  (get_post 2 (boot store_ok)).1
    = Return (Some (NamedRow [("id", VInt 2); ("title", VText "Second");
                              ("content", VText "two")]))
  /\ (get_post 5 (boot store_ok)).1 = Return None
  /\ (get_post (2 ^ 63) (boot store_ok)).1 = Raise int_too_large.
Proof.
  pose proof (get_post_by_id 2 (boot store_ok) two_posts
                (conj eq_refl (conj eq_refl eq_refl))) as (H2 & _ & _).
  pose proof (get_post_by_id 5 (boot store_ok) two_posts
                (conj eq_refl (conj eq_refl eq_refl))) as (H5 & _ & _).
  pose proof (get_post_by_id (2 ^ 63) (boot store_ok) two_posts
                (conj eq_refl (conj eq_refl eq_refl))) as (_ & H63 & _).
  split; [| split].
  - apply (proj1 (H2 ltac:(unfold in_int64; lia))
             {| p_id := 2; p_title := VText "Second"; p_content := VText "two" |}).
    + right. left.
    + reflexivity.
    + apply (bool_decide_unpack _). vm_compute. exact I.
  - apply (proj2 (H5 ltac:(unfold in_int64; lia))).
    intros p Hp. unfold two_posts in Hp.
    apply elem_of_cons in Hp as [-> | Hp]; [simpl; lia |].
    apply elem_of_cons in Hp as [-> | Hp]; [simpl; lia |].
    inversion Hp.
  - apply H63. unfold in_int64. lia.
Defined.

(** AUTOINCREMENT keeps the ids of the table distinct. *)
Lemma fresh_id_above rows sq p : p ∈ rows -> p_id p < fresh_id rows sq.
Proof.
  unfold fresh_id. induction rows as [| q rows IH]; intros Hin; [inversion Hin |].
  rewrite fmap_cons. cbn [foldr].
  apply elem_of_cons in Hin as [-> | Hin]; [lia |].
  specialize (IH Hin). lia.
Qed.

Lemma insert_post_NoDup title content d d' rows :
  posts d = Some rows -> NoDup (p_id <$> rows) ->
  insert_post title content d = Some d' ->
  exists rows', posts d' = Some rows' /\ NoDup (p_id <$> rows')
                /\ length rows' = S (length rows).
Proof.
  intros Hp Hnd. unfold insert_post. rewrite Hp. intros [= <-]. simpl.
  eexists. split; [reflexivity |]. split.
  - rewrite fmap_app. apply NoDup_app. split; [exact Hnd |]. split.
    + intros i Hi Hnew. apply list_elem_of_fmap in Hi as (p & -> & Hin).
      apply list_elem_of_singleton in Hnew.
      pose proof (fresh_id_above rows (seq d) p Hin). simpl in Hnew. lia.
    + apply NoDup_singleton.
  - rewrite length_app. simpl. lia.
Qed.

Lemma create_valid request w rows title content :
  method request = "POST" ->
  form request !! "title" = Some title ->
  title <> EmptyString ->
  form request !! "content" = Some content ->
  serving w rows ->
  create request w = (Return (Redirect "/"), after_create title content rows w).
Proof.
  intros Hm Ht Hne Hc (Hs & Hp & Hf). unfold create.
  unfold bind at 1. rewrite decide_True by exact Hm.
  unfold bind at 1. unfold form_getitem. rewrite Ht. simpl.
  unfold bind at 1. rewrite Hc. simpl.
  rewrite decide_False by exact Hne.
  enter_with Hs. simpl. rewrite Hp. simpl. rewrite Hf. leave_with.
  unfold apply_pending, insert_post. simpl. rewrite Hp. reflexivity.
Qed.

Lemma create_empty_title request w content :
  method request = "POST" ->
  form request !! "title" = Some EmptyString ->
  form request !! "content" = Some content ->
  create request w =
    (Return (Html (render_template "create.html" [])),
     set_flashes (flashes w ++ ["Title is required!"]) w).
Proof.
  intros Hm Ht Hc. unfold create.
  unfold bind at 1. rewrite decide_True by exact Hm.
  unfold bind at 1. unfold form_getitem. rewrite Ht. simpl.
  unfold bind at 1. rewrite Hc. reflexivity.
Qed.

Lemma create_missing request w :
  method request = "POST" ->
  form request !! "title" = None \/ form request !! "content" = None ->
  create request w =
    (Raise (MkExn BadRequestKeyError
              (match form request !! "title" with
               | Some _ => "content"
               | None => "title"
               end) None), w).
Proof.
  intros Hm Hk. unfold create.
  unfold bind at 1. rewrite decide_True by exact Hm.
  unfold bind at 1. unfold form_getitem.
  destruct (form request !! "title") as [title |]; simpl; [| reflexivity].
  destruct Hk as [Hk | Hk]; [discriminate |].
  unfold bind at 1. rewrite Hk. reflexivity.
Qed.

Lemma insert_and_commit_store title content w rows :
  serving w rows ->
  store (insert_and_commit title content w) =
    {| unreachable := None; fault := None;
       committed := {| posts := Some (rows ++ [created (committed (store w)) rows title content]);
                       seq := fresh_id rows (seq (committed (store w))) |} |}.
Proof.
  intros (Hs & Hp & Hf). unfold insert_and_commit.
  rewrite execute_unfold. unfold conn_execute. simpl conns. rewrite lookup_last.
  simpl. rewrite Hp. simpl. rewrite Hf. leave_with.
  unfold apply_pending, insert_post. simpl. rewrite Hp, Hs, Hf. reflexivity.
Qed.

(** [conn.execute] does not look at the counter. *)
Lemma conn_execute_counted {R} conn sql params w :
  (@conn_execute R conn sql params (counted w)).1 = (@conn_execute R conn sql params w).1.
Proof.
  unfold conn_execute. simpl.
  destruct (conns w !! conn) as [cs |]; simpl; auto.
  destruct (conn_open cs); simpl; auto.
  destruct (prepare sql) as [st |]; simpl; auto.
  destruct (posts _) as [rows |]; simpl; auto.
  case_decide; simpl; auto.
  destruct (forallb bindable params); simpl; auto.
  destruct (fault (store w)); simpl; auto.
  destruct (run_statement st params rows); reflexivity.
Qed.

Lemma healthz_no_table w :
  unreachable (store w) = None -> posts (committed (store w)) = None ->
  healthz w =
    (Return (ResponseClass unhealthy_body 500 "application/json"),
     set_logs (logs w ++ [(FATAL, "no such table: posts")])
       (after_query "SELECT 1 FROM posts LIMIT 1" [] w)).
Proof.
  intros Hs Hp. unfold healthz, try_except. enter_with Hs.
  simpl. rewrite Hp. simpl. leave_with. reflexivity.
Qed.

Lemma metrics_endpoint_serving w rows :
  serving w rows ->
  metrics_endpoint w =
    (Return (ResponseClass
               (metrics_body (db_connection_count (db w) + 1) (Z.of_nat (length rows)))
               200 "application/json"),
     after_query "SELECT COUNT(*) FROM posts" [] w).
Proof.
  intros Hw. unfold metrics_endpoint, bind, call.
  rewrite (get_post_count_serving w rows Hw). unfold read.
  rewrite json_dumps_metrics. reflexivity.
Qed.

Lemma metrics_endpoint_no_table w :
  unreachable (store w) = None -> posts (committed (store w)) = None ->
  (metrics_endpoint w).1 = Raise (MkExn OperationalError "no such table: posts" None).
Proof.
  intros Hs Hp. unfold metrics_endpoint, bind, call.
  pose proof (get_post_count_result w) as H. rewrite Hs, Hp in H.
  destruct (get_post_count w) as [[[] | r | e] w']; simpl in *; congruence.
Qed.

(** C5: a POST to [create] whose form carries a non-empty title (and
    its content), on a store in working order (it opens, it holds the
    posts table, no fault strikes):
    the handler hands one INSERT with that title and content to
    [execute], commits it, and returns the redirect to the index view;
    the table then holds the former rows and the new one, so that
    [get_post_count], which answered the number of rows before, answers
    one more afterwards. *)
Theorem create_inserts_and_redirects (request : Request) (w : World) (rows : list Post)
    (title content : string) :
  method request = "POST" ->
  form request !! "title" = Some title ->
  title <> EmptyString ->
  form request !! "content" = Some content ->
  serving w rows ->
  let w' := (create request w).2 in
  (create request w).1 = Return (Redirect "/")
  /\ statements w' = statements w ++ [("INSERT INTO posts (title, content) VALUES (?, ?)",
                                       [VText title; VText content])]
  /\ posts (committed (store w')) =
       Some (rows ++ [created (committed (store w)) rows title content])
  /\ (get_post_count w).1 = Return (VInt (Z.of_nat (length rows)))
  /\ (get_post_count w').1 = Return (VInt (Z.of_nat (length rows) + 1)).
Proof.
  intros Hm Ht Hne Hc Hw. cbv zeta.
  rewrite (create_valid request w rows title content Hm Ht Hne Hc Hw).
  destruct Hw as (Hs & Hp & Hf).
  repeat split.
  - rewrite get_post_count_result, Hs, Hp, Hf. reflexivity.
  - rewrite get_post_count_result. simpl. rewrite Hs, Hf, length_app. simpl.
    do 2 f_equal. lia.
Qed.

Lemma create_inserts_and_redirects_witness :
  (create (post_form "Hello" "World") (boot store_ok)).1 = Return (Redirect "/")
  /\ (get_post_count (boot store_ok)).1 = Return (VInt 2)
  /\ (get_post_count (create (post_form "Hello" "World") (boot store_ok)).2).1
       = Return (VInt 3).
Proof.
  pose proof (create_inserts_and_redirects (post_form "Hello" "World") (boot store_ok)
                two_posts "Hello" "World" eq_refl eq_refl
                ltac:(discriminate) eq_refl (conj eq_refl (conj eq_refl eq_refl))) as H.
  cbv zeta in H. destruct H as (Hr & _ & _ & Hb & Ha).
  split; [exact Hr | split; [exact Hb | exact Ha]].
Defined.

(** C6: a POST to [create] whose form carries an empty title: nothing
    is handed to sqlite3 and the store is untouched, so
    [get_post_count] answers afterwards what it answered before; the
    handler flashes 'Title is required!' and returns the form view
    [create.html] again, which is not a redirect. *)
Theorem create_rejects_empty_title (request : Request) (w : World) (content : string) :
  method request = "POST" ->
  form request !! "title" = Some EmptyString ->
  form request !! "content" = Some content ->
  let r := (create request w).1 in
  let w' := (create request w).2 in
  r = Return (Html (render_template "create.html" []))
  /\ (forall location, r <> Return (Redirect location))
  /\ flashes w' = flashes w ++ ["Title is required!"]
  /\ store w' = store w
  /\ statements w' = statements w
  /\ (get_post_count w').1 = (get_post_count w).1.
Proof.
  intros Hm Ht Hc. cbv zeta.
  rewrite (create_empty_title request w content Hm Ht Hc). simpl.
  repeat split.
  - intros location. discriminate.
  - rewrite !get_post_count_result. reflexivity.
Qed.

Lemma create_rejects_empty_title_witness :
  (create (post_form EmptyString "World") (boot store_ok)).1
    = Return (Html (render_template "create.html" []))
  /\ flashes (create (post_form EmptyString "World") (boot store_ok)).2
       = ["Title is required!"]
  /\ (get_post_count (create (post_form EmptyString "World") (boot store_ok)).2).1
       = (get_post_count (boot store_ok)).1.
Proof.
  pose proof (create_rejects_empty_title (post_form EmptyString "World") (boot store_ok)
                "World" eq_refl eq_refl eq_refl) as H.
  cbv zeta in H. destruct H as (Hr & _ & Hf & _ & _ & Hc).
  split; [exact Hr | split; [exact Hf | exact Hc]].
Defined.

(** C7: on a store in working order (it opens, it holds the posts
    table, no fault strikes),
    [get_post_count] returns the number of rows of the table, an
    integer that is never negative; on the empty table it returns 0
    and does not raise; and once an insert has been executed and
    committed on a connection, the count is one more. *)
Theorem get_post_count_is_row_count (w : World) (rows : list Post) :
  serving w rows ->
  (get_post_count w).1 = Return (VInt (Z.of_nat (length rows)))
  /\ 0 <= Z.of_nat (length rows)
  /\ (rows = [] -> (get_post_count w).1 = Return (VInt 0))
  /\ (forall title content,
        (get_post_count (insert_and_commit title content w)).1
          = Return (VInt (Z.of_nat (length rows) + 1))).
Proof.
  intros Hw. pose proof Hw as (Hs & Hp & Hf).
  assert ((get_post_count w).1 = Return (VInt (Z.of_nat (length rows)))) as Hc.
  { rewrite get_post_count_result, Hs, Hp, Hf. reflexivity. }
  split; [exact Hc |]. split; [lia |]. split.
  - intros ->. exact Hc.
  - intros title content.
    rewrite get_post_count_result, (insert_and_commit_store title content w rows Hw).
    simpl. rewrite length_app. simpl. do 2 f_equal. lia.
Qed.

Lemma get_post_count_is_row_count_witness :
  (get_post_count (boot store_ok)).1 = Return (VInt 2)
  /\ (get_post_count (insert_and_commit "Hello" "World" (boot store_ok))).1 = Return (VInt 3).
Proof.
  pose proof (get_post_count_is_row_count (boot store_ok) two_posts (conj eq_refl (conj eq_refl eq_refl)))
    as (Hc & _ & _ & Hi).
  split; [exact Hc | exact (Hi "Hello" "World")].
Defined.

(** C8, as stated: on every store and for every value of the counter
    the metrics handler answers 200.  It does not: when the store opens
    but the posts table is missing, the count query raises and nothing
    in [metrics_endpoint] catches the error. *)
Lemma metrics_endpoint_fails_without_posts_table :
  ~ (forall w, exists r, (metrics_endpoint w).1 = Return r /\ status_code r = 200).
Proof.
  intros H. destruct (H (boot store_no_table)) as (r & Hr & _).
  rewrite (metrics_endpoint_no_table (boot store_no_table) eq_refl eq_refl) in Hr.
  discriminate.
Qed.

(** C8, amended: on a store in working order (it opens, it holds the
    posts table, no fault strikes), and
    for every value of the counter, the metrics handler answers 200
    with the JSON body that carries the counter as it stands once the
    handler's own count query has been counted (one more than before
    the request, and the value the counter has when the handler
    returns) and the number of rows of the posts table; the store is
    left as it was.  On a store that opens without the posts table the
    error of the count query leaves the handler. *)
Theorem metrics_endpoint_reports (w : World) :
  (forall rows, serving w rows ->
     let w' := (metrics_endpoint w).2 in
     (metrics_endpoint w).1 =
       Return (ResponseClass
                 (metrics_body (db_connection_count (db w')) (Z.of_nat (length rows)))
                 200 "application/json")
     /\ db_connection_count (db w') = db_connection_count (db w) + 1
     /\ store w' = store w)
  /\ (unreachable (store w) = None -> posts (committed (store w)) = None ->
      (metrics_endpoint w).1 = Raise (MkExn OperationalError "no such table: posts" None)).
Proof.
  split.
  - intros rows Hw. cbv zeta. rewrite (metrics_endpoint_serving w rows Hw). simpl.
    repeat split.
  - apply metrics_endpoint_no_table.
Qed.

Lemma metrics_endpoint_reports_witness :
  (metrics_endpoint (boot store_ok)).1 =
    Return (ResponseClass (metrics_body 1 2) 200 "application/json")
  /\ (metrics_endpoint (boot store_no_table)).1
       = Raise (MkExn OperationalError "no such table: posts" None).
Proof.
  split.
  - pose proof (proj1 (metrics_endpoint_reports (boot store_ok)) two_posts
                  (conj eq_refl (conj eq_refl eq_refl))) as H.
    cbv zeta in H. destruct H as (Hr & Hc & _).
    rewrite Hc in Hr. exact Hr.
  - apply (proj2 (metrics_endpoint_reports (boot store_no_table))); reflexivity.
Defined.

(** C9: [execute] adds one to the counter before it hands the statement
    to sqlite3, so a statement that fails is counted all the same: the
    error reaches the caller of [execute], and the state it leaves is
    the one the statement left when run on the counter already
    incremented.  The health probe on a store without posts table is
    such a statement: [healthz] answers unhealthy and the counter has
    gone up by one. *)
Theorem execute_counts_failed_statement (conn : Connection) (sql : string)
    (params : list Value) (w : World) (e : Exn) :
  (conn_execute (R := Cursor) conn sql params w).1 = Raise e ->
  execute conn sql params w
    = (Raise e, (conn_execute (R := Cursor) conn sql params (counted w)).2)
  /\ db_connection_count (db (execute conn sql params w).2) = db_connection_count (db w) + 1
  /\ (unreachable (store w) = None -> posts (committed (store w)) = None ->
      (healthz w).1 = Return (ResponseClass unhealthy_body 500 "application/json")
      /\ db_connection_count (db (healthz w).2) = db_connection_count (db w) + 1).
Proof.
  intros He. split; [| split].
  - rewrite execute_unfold.
    pose proof (conn_execute_counted (R := Cursor) conn sql params w) as Hc.
    rewrite He in Hc.
    destruct (conn_execute conn sql params (counted w)) as [[cur | r | e'] w'];
      simpl in Hc; try discriminate.
    injection Hc as ->. reflexivity.
  - apply execute_counter.
  - intros Hs Hp. rewrite (healthz_no_table w Hs Hp). split; reflexivity.
Qed.

(** The probe of [healthz], on the connection of its [with] block, on a
    store without posts table. *)
Lemma execute_counts_failed_statement_witness :
  (execute 0 "SELECT 1 FROM posts LIMIT 1" [] (entered (boot store_no_table))).1
    = Raise (MkExn OperationalError "no such table: posts" None)
  /\ db_connection_count
       (db (execute 0 "SELECT 1 FROM posts LIMIT 1" [] (entered (boot store_no_table))).2) = 1.
Proof.
  pose proof (execute_counts_failed_statement 0 "SELECT 1 FROM posts LIMIT 1" []
                (entered (boot store_no_table))
                (MkExn OperationalError "no such table: posts" None) eq_refl)
    as (He & Hc & _).
  split; [rewrite He; reflexivity | exact Hc].
Defined.

(** C10: a POST to [create] whose form lacks the title or the content
    raises the key error of [request.form[...]], naming the first field
    that is missing, before the title is validated and before anything
    is inserted: the process state, and with it the posts table, the
    flash queue and the record of statements, is exactly as before. *)
Theorem create_missing_field_raises (request : Request) (w : World) :
  method request = "POST" ->
  form request !! "title" = None \/ form request !! "content" = None ->
  exists key,
    (key = "title" \/ key = "content")
    /\ form request !! key = None
    /\ create request w = (Raise (MkExn BadRequestKeyError key None), w).
Proof.
  intros Hm Hk. rewrite (create_missing request w Hm Hk).
  destruct (form request !! "title") as [title |] eqn:Ht.
  - exists "content". destruct Hk as [Hk | Hk]; [discriminate |]. auto.
  - exists "title". auto.
Qed.

Lemma create_missing_field_raises_witness :
  (exists key, (key = "title" \/ key = "content")
     /\ form form_without_title !! key = None
     /\ create form_without_title (boot store_ok)
        = (Raise (MkExn BadRequestKeyError key None), boot store_ok))
  /\ (exists key, (key = "title" \/ key = "content")
     /\ form form_without_content !! key = None
     /\ create form_without_content (boot store_ok)
        = (Raise (MkExn BadRequestKeyError key None), boot store_ok)).
Proof.
  split.
  - apply (create_missing_field_raises form_without_title (boot store_ok) eq_refl).
    left. reflexivity.
  - apply (create_missing_field_raises form_without_content (boot store_ok) eq_refl).
    right. reflexivity.
Defined.

(** ** The views, case by case *)

(** The store of a state is in one of four conditions: it cannot be
    opened; it opens with the posts table and a fault strikes; it opens
    with the table and works; it opens without the table. *)
Ltac store_cases w :=
  let e := fresh "e" in
  let f := fresh "f" in
  let rows := fresh "rows" in
  let Hs := fresh "Hs" in
  let Hp := fresh "Hp" in
  let Hf := fresh "Hf" in
  destruct (unreachable (store w)) as [e |] eqn:Hs;
  [| destruct (posts (committed (store w))) as [rows |] eqn:Hp;
     [destruct (fault (store w)) as [f |] eqn:Hf |]].

(** A [with] block of the program whose statement meets the store in
    each of these conditions. *)
Ltac run_with Hs Hp :=
  enter_with Hs; simpl; rewrite Hp; simpl.

Lemma index_outcome w :
  index w =
    match unreachable (store w), posts (committed (store w)), fault (store w) with
    | Some e, _, _ => (Raise (connect_failure e), w)
    | None, None, _ => (Raise no_such_table, after_query "SELECT * FROM posts" [] w)
    | None, Some rows, Some f => (Raise f, after_query "SELECT * FROM posts" [] w)
    | None, Some rows, None =>
        (Return (index_page rows), after_query "SELECT * FROM posts" [] w)
    end.
Proof.
  unfold index. store_cases w.
  - apply get_db_connection_unreachable, Hs.
  - run_with Hs Hp. rewrite Hf. leave_with. reflexivity.
  - run_with Hs Hp. rewrite Hf. leave_with.
    unfold index_page, fetchall. rewrite <- list_fmap_compose. reflexivity.
  - run_with Hs Hp. leave_with. reflexivity.
Qed.

Lemma get_post_outcome post_id w :
  get_post post_id w =
    match unreachable (store w), posts (committed (store w)) with
    | Some e, _ => (Raise (connect_failure e), w)
    | None, None =>
        (Raise no_such_table, after_query "SELECT * FROM posts WHERE id = ?" [VInt post_id] w)
    | None, Some rows =>
        (if decide (in_int64 post_id) then
           match fault (store w) with
           | Some f => Raise f
           | None => Return (named <$> first_with_id post_id rows)
           end
         else Raise int_too_large,
         after_query "SELECT * FROM posts WHERE id = ?" [VInt post_id] w)
    end.
Proof.
  destruct (unreachable (store w)) as [e |] eqn:Hs;
    [| destruct (posts (committed (store w))) as [rows |] eqn:Hp].
  - apply get_db_connection_unreachable, Hs.
  - case_decide as Hid.
    + destruct (fault (store w)) as [f |] eqn:Hf.
      * unfold get_post. run_with Hs Hp. rewrite (bool_decide_eq_true_2 _ Hid). simpl.
        rewrite Hf. leave_with. reflexivity.
      * apply (get_post_serving post_id w rows); [repeat split; assumption | exact Hid].
    + apply (get_post_too_large post_id w rows Hs Hp Hid).
  - unfold get_post. run_with Hs Hp. leave_with. reflexivity.
Qed.

Lemma get_post_count_outcome w :
  get_post_count w =
    match unreachable (store w), posts (committed (store w)), fault (store w) with
    | Some e, _, _ => (Raise (connect_failure e), w)
    | None, None, _ => (Raise no_such_table, after_query "SELECT COUNT(*) FROM posts" [] w)
    | None, Some rows, Some f => (Raise f, after_query "SELECT COUNT(*) FROM posts" [] w)
    | None, Some rows, None =>
        (Return (VInt (Z.of_nat (length rows))), after_query "SELECT COUNT(*) FROM posts" [] w)
    end.
Proof.
  store_cases w.
  - apply get_db_connection_unreachable, Hs.
  - unfold get_post_count. run_with Hs Hp. rewrite Hf. leave_with. reflexivity.
  - apply (get_post_count_serving w rows). repeat split; assumption.
  - unfold get_post_count. run_with Hs Hp. leave_with. reflexivity.
Qed.

Lemma healthz_outcome w :
  healthz w =
    match unreachable (store w), posts (committed (store w)), fault (store w) with
    | Some e, _, _ => (Raise (connect_failure e), w)
    | None, None, _ =>
        (Return (ResponseClass unhealthy_body 500 "application/json"),
         logged FATAL "no such table: posts" (after_query "SELECT 1 FROM posts LIMIT 1" [] w))
    | None, Some rows, Some f =>
        if isinstance f OperationalError then
          (Return (ResponseClass unhealthy_body 500 "application/json"),
           logged FATAL (exn_msg f) (after_query "SELECT 1 FROM posts LIMIT 1" [] w))
        else (Raise f, after_query "SELECT 1 FROM posts LIMIT 1" [] w)
    | None, Some rows, None =>
        (Return (ResponseClass healthy_body 200 "application/json"),
         after_query "SELECT 1 FROM posts LIMIT 1" [] w)
    end.
Proof.
  store_cases w.
  - unfold healthz, try_except. rewrite (get_db_connection_unreachable _ w e Hs). reflexivity.
  - unfold healthz, try_except. run_with Hs Hp. rewrite Hf. leave_with.
    destruct (isinstance f OperationalError); reflexivity.
  - unfold healthz, try_except. run_with Hs Hp. rewrite Hf. leave_with. reflexivity.
  - apply healthz_no_table; assumption.
Qed.

Lemma metrics_endpoint_outcome w :
  metrics_endpoint w =
    match unreachable (store w), posts (committed (store w)), fault (store w) with
    | Some e, _, _ => (Raise (connect_failure e), w)
    | None, None, _ => (Raise no_such_table, after_query "SELECT COUNT(*) FROM posts" [] w)
    | None, Some rows, Some f => (Raise f, after_query "SELECT COUNT(*) FROM posts" [] w)
    | None, Some rows, None =>
        (Return (ResponseClass
                   (metrics_body (db_connection_count (db w) + 1) (Z.of_nat (length rows)))
                   200 "application/json"),
         after_query "SELECT COUNT(*) FROM posts" [] w)
    end.
Proof.
  unfold metrics_endpoint, bind, call. rewrite get_post_count_outcome.
  store_cases w; try reflexivity.
  unfold read. rewrite json_dumps_metrics. reflexivity.
Qed.

Lemma post_outcome post_id w :
  post post_id w =
    match unreachable (store w), posts (committed (store w)) with
    | Some e, _ => (Raise (connect_failure e), w)
    | None, None =>
        (Raise no_such_table, after_query "SELECT * FROM posts WHERE id = ?" [VInt post_id] w)
    | None, Some rows =>
        if decide (in_int64 post_id) then
          match fault (store w) with
          | Some f =>
              (Raise f, after_query "SELECT * FROM posts WHERE id = ?" [VInt post_id] w)
          | None =>
              match first_with_id post_id rows with
              | Some p =>
                  (Return (post_page p),
                   logged INFO (retrieved_line p)
                     (after_query "SELECT * FROM posts WHERE id = ?" [VInt post_id] w))
              | None =>
                  (Return not_found_page,
                   logged INFO (missing_line post_id)
                     (after_query "SELECT * FROM posts WHERE id = ?" [VInt post_id] w))
              end
          end
        else
          (Raise int_too_large,
           after_query "SELECT * FROM posts WHERE id = ?" [VInt post_id] w)
    end.
Proof.
  unfold post. unfold bind at 1. unfold call. rewrite get_post_outcome.
  destruct (unreachable (store w)) as [e |]; [reflexivity |].
  destruct (posts (committed (store w))) as [rows |]; [| reflexivity].
  case_decide; [| reflexivity].
  destruct (fault (store w)) as [f |]; [reflexivity |].
  destruct (first_with_id post_id rows) as [p |]; reflexivity.
Qed.

Lemma about_outcome w :
  about w = (Return (Html (render_template "about.html" [])),
             logged INFO "About Us retrieved!" w).
Proof. reflexivity. Qed.

(** Into the [with] block of [create], past the form and the title. *)
Ltac into_create Hm Ht Hc He :=
  unfold create;
  unfold bind at 1; rewrite decide_True by exact Hm;
  unfold bind at 1; unfold form_getitem; rewrite Ht; simpl;
  unfold bind at 1; rewrite Hc; simpl;
  rewrite decide_False by exact He.

Lemma create_outcome request w :
  create request w =
    if decide (method request = "POST") then
      match form request !! "title", form request !! "content" with
      | None, _ => (Raise (MkExn BadRequestKeyError "title" None), w)
      | Some _, None => (Raise (MkExn BadRequestKeyError "content" None), w)
      | Some title, Some content =>
          if decide (title = EmptyString) then
            (Return form_page, flashed "Title is required!" w)
          else
            match unreachable (store w), posts (committed (store w)), fault (store w) with
            | Some e, _, _ => (Raise (connect_failure e), w)
            | None, None, _ =>
                (Raise no_such_table,
                 after_query "INSERT INTO posts (title, content) VALUES (?, ?)"
                   [VText title; VText content] w)
            | None, Some rows, Some f =>
                (Raise f,
                 after_query "INSERT INTO posts (title, content) VALUES (?, ?)"
                   [VText title; VText content] w)
            | None, Some rows, None =>
                (Return (Redirect "/"), after_create title content rows w)
            end
      end
    else (Return form_page, w).
Proof.
  case_decide as Hm.
  - destruct (form request !! "title") as [title |] eqn:Ht.
    + destruct (form request !! "content") as [content |] eqn:Hc.
      * case_decide as He.
        -- subst title. apply (create_empty_title request w content Hm Ht Hc).
        -- store_cases w.
           ++ into_create Hm Ht Hc He.
              rewrite (get_db_connection_unreachable _ w e Hs). reflexivity.
           ++ into_create Hm Ht Hc He.
              run_with Hs Hp. rewrite Hf. leave_with. reflexivity.
           ++ apply (create_valid request w rows title content Hm Ht He Hc).
              repeat split; assumption.
           ++ into_create Hm Ht Hc He.
              run_with Hs Hp. leave_with. reflexivity.
      * rewrite (create_missing request w Hm (or_intror Hc)), Ht. reflexivity.
    + rewrite (create_missing request w Hm (or_introl Ht)), Ht. reflexivity.
  - unfold create. unfold bind at 1. rewrite decide_False by exact Hm. reflexivity.
Qed.

(** ** What a request leaves behind *)

Lemma is_open_app_closed (l : list ConnState) (cs : ConnState) (c : nat) :
  conn_open cs = false ->
  match (l ++ [cs]) !! c with Some x => conn_open x | None => false end
  = match l !! c with Some x => conn_open x | None => false end.
Proof.
  intros Hc. destruct (decide (c < length l)%nat) as [Hlt | Hge].
  - rewrite lookup_app_l by exact Hlt. reflexivity.
  - rewrite (lookup_ge_None_2 l c) by lia.
    destruct (decide (c = length l)) as [-> | Hne].
    + rewrite lookup_last. exact Hc.
    + rewrite lookup_ge_None_2; [reflexivity |]. rewrite length_app. simpl. lia.
Qed.

Lemma is_open_after_query c sql params w :
  is_open c (after_query sql params w) = is_open c w.
Proof. unfold is_open. simpl. apply is_open_app_closed. reflexivity. Qed.

Lemma is_open_after_create c title content rows w :
  is_open c (after_create title content rows w) = is_open c w.
Proof. unfold is_open. simpl. apply is_open_app_closed. reflexivity. Qed.

(** Every case of the outcome of a view: the condition of the store,
    the form, the range of the id, the class of the fault. *)
Ltac outcome_case :=
  match goal with
  | |- context [match unreachable ?s with _ => _ end] => destruct (unreachable s) eqn:?
  | |- context [match posts ?d with _ => _ end] => destruct (posts d) eqn:?
  | |- context [match fault ?s with _ => _ end] => destruct (fault s) eqn:?
  | |- context [match first_with_id ?i ?r with _ => _ end] => destruct (first_with_id i r)
  | |- context [match form ?r !! ?k with _ => _ end] => destruct (form r !! k) eqn:?
  | |- context [if isinstance ?f ?c then _ else _] => destruct (isinstance f c)
  | |- context [decide ?P] => destruct (decide P)
  end.
Ltac outcome_cases := repeat outcome_case.

(** Serving a request opens no connection that it does not close. *)
Lemma serve_is_open r w c : is_open c (serve w r) = is_open c w.
Proof.
  unfold serve. destruct r as [| post_id | | request | |]; simpl dispatch.
  - rewrite index_outcome. outcome_cases; simpl; auto using is_open_after_query.
  - rewrite post_outcome. outcome_cases; simpl;
      solve [ reflexivity
            | apply (is_open_after_query c "SELECT * FROM posts WHERE id = ?"
                       [VInt post_id] w) ].
  - reflexivity.
  - rewrite create_outcome.
    outcome_cases; simpl; auto using is_open_after_query, is_open_after_create.
  - rewrite healthz_outcome. outcome_cases; simpl;
      solve [ reflexivity
            | apply (is_open_after_query c "SELECT 1 FROM posts LIMIT 1" [] w) ].
  - rewrite metrics_endpoint_outcome. outcome_cases; simpl; auto using is_open_after_query.
Qed.

(** Serving a request leaves the store as it was, or appends to the
    posts table one row with a fresh id and a non-empty title. *)
Lemma serve_store r w :
  store (serve w r) = store w
  \/ exists rows title content,
       title <> EmptyString
       /\ table w = Some rows
       /\ unreachable (store (serve w r)) = unreachable (store w)
       /\ table (serve w r) = Some (rows ++ [created (committed (store w)) rows title content]).
Proof.
  unfold serve. destruct r as [| post_id | | request | |]; simpl dispatch.
  - left. rewrite index_outcome. outcome_cases; reflexivity.
  - left. rewrite post_outcome. outcome_cases; reflexivity.
  - left. reflexivity.
  - rewrite create_outcome. unfold table.
    destruct (decide (method request = "POST")); [| left; reflexivity].
    destruct (form request !! "title") as [title |]; [| left; reflexivity].
    destruct (form request !! "content") as [content |]; [| left; reflexivity].
    destruct (decide (title = EmptyString)) as [He | He]; [left; reflexivity |].
    store_cases w; [left; reflexivity | left; reflexivity | | left; reflexivity].
    right. exists rows, title, content. auto.
  - left. rewrite healthz_outcome. outcome_cases; reflexivity.
  - left. rewrite metrics_endpoint_outcome. outcome_cases; reflexivity.
Qed.

Lemma titled_created d rows title content :
  title <> EmptyString -> titled (created d rows title content).
Proof. intros H. exists title. split; [reflexivity | exact H]. Qed.

Lemma NoDup_created d rows title content :
  NoDup (p_id <$> rows) -> NoDup (p_id <$> (rows ++ [created d rows title content])).
Proof.
  intros Hnd. rewrite fmap_app. apply NoDup_app. split; [exact Hnd |]. split.
  - intros i Hi Hnew. apply list_elem_of_fmap in Hi as (p & -> & Hin).
    apply list_elem_of_singleton in Hnew.
    pose proof (fresh_id_above rows (seq d) p Hin). simpl in Hnew. lia.
  - apply NoDup_singleton.
Qed.

(** Over any run of requests the posts table only grows, at its end,
    by rows with non-empty titles and ids that keep all ids distinct. *)
Lemma serve_all_table rs w rows :
  table w = Some rows ->
  exists more,
    table (serve_all rs w) = Some (rows ++ more)
    /\ Forall titled more
    /\ (NoDup (p_id <$> rows) -> NoDup (p_id <$> (rows ++ more))).
Proof.
  revert w rows. induction rs as [| r rs IH]; intros w rows Ht.
  - exists []. rewrite app_nil_r. auto.
  - change (serve_all (r :: rs) w) with (serve_all rs (serve w r)).
    destruct (serve_store r w) as [Hsame | (rows0 & title & content & Hne & Ht0 & _ & Ht1)].
    + apply IH. unfold table in *. rewrite Hsame. exact Ht.
    + rewrite Ht in Ht0. injection Ht0 as <-.
      destruct (IH _ _ Ht1) as (more & Hm & Hf & Hn).
      exists (created (committed (store w)) rows title content :: more).
      rewrite <- app_assoc in Hm. split; [exact Hm |]. split.
      * constructor; [apply titled_created, Hne | exact Hf].
      * intros Hnd. rewrite cons_middle, app_assoc.
        apply Hn, NoDup_created, Hnd.
Qed.

Lemma serve_all_no_table rs w :
  table w = None -> table (serve_all rs w) = None.
Proof.
  revert w. induction rs as [| r rs IH]; intros w Ht; [exact Ht |].
  change (serve_all (r :: rs) w) with (serve_all rs (serve w r)). apply IH.
  destruct (serve_store r w) as [Hsame | (rows0 & ? & ? & _ & Ht0 & _)].
  - unfold table in *. rewrite Hsame. exact Ht.
  - rewrite Ht in Ht0. discriminate.
Qed.

Lemma serve_all_is_open rs w c : is_open c (serve_all rs w) = is_open c w.
Proof.
  revert w. induction rs as [| r rs IH]; intros w; [reflexivity |].
  change (serve_all (r :: rs) w) with (serve_all rs (serve w r)).
  rewrite IH. apply serve_is_open.
Qed.

Lemma first_with_id_present post_id rows p :
  p ∈ rows -> p_id p = post_id -> NoDup (p_id <$> rows) ->
  first_with_id post_id rows = Some p.
Proof.
  intros Hin Hid Hnd. unfold first_with_id.
  induction rows as [| q rows IH]; [inversion Hin |].
  rewrite fmap_cons in Hnd. apply NoDup_cons in Hnd as [Hq Hnd].
  rewrite filter_cons. case_decide as Hm.
  - simpl. apply id_matches_int in Hm.
    apply elem_of_cons in Hin as [-> | Hin]; [reflexivity |].
    exfalso. apply Hq. rewrite Hm, <- Hid.
    apply list_elem_of_fmap. exists p. auto.
  - apply elem_of_cons in Hin as [-> | Hin].
    + exfalso. apply Hm. apply id_matches_int, Hid.
    + apply IH; assumption.
Qed.

Lemma first_with_id_absent post_id rows :
  (forall p, p ∈ rows -> p_id p <> post_id) -> first_with_id post_id rows = None.
Proof.
  intros Hno. unfold first_with_id.
  induction rows as [| q rows IH]; [reflexivity |].
  rewrite filter_cons. case_decide as Hm.
  - exfalso. apply (Hno q); [left | apply id_matches_int, Hm].
  - apply IH. intros p Hp. apply Hno. right. exact Hp.
Qed.

(** A lookup on a table that has just grown by the row [new]: the new
    id finds the new row, any other id finds what it found before. *)
Lemma first_with_id_grown post_id rows new :
  (forall p, p ∈ rows -> p_id p < p_id new) ->
  first_with_id post_id (rows ++ [new]) =
    if decide (post_id = p_id new) then Some new else first_with_id post_id rows.
Proof.
  intros Hlt. unfold first_with_id. rewrite filter_app.
  case_decide as He.
  - assert (filter (fun p => id_matches (VInt post_id) p = true) rows = []) as ->.
    { clear -Hlt He. induction rows as [| q rows IH]; [reflexivity |].
      rewrite filter_cons_False.
      - apply IH. intros p Hp. apply Hlt. right. exact Hp.
      - intros Hm. apply id_matches_int in Hm.
        pose proof (Hlt q ltac:(left)). lia. }
    rewrite (filter_singleton_True _ new []); [reflexivity |].
    apply id_matches_int. auto.
  - rewrite (filter_singleton_False _ new []), app_nil_r; [reflexivity |].
    intros Hm. apply id_matches_int in Hm. auto.
Qed.

(** ** Further properties of the views *)

(** X1: the view of one post, on a store in working order.  For an
    id that fits the 64 bits of an SQLite INTEGER: when the table has a
    row with the id asked for (ids being distinct), [post] returns the
    page [post.html] of that row, with status 200, and logs at INFO the
    line naming its title; the row is addressable by name, so reading
    its title does not raise.  When no row has the id, it returns the
    page [404.html] with status 404 and logs at INFO the line naming
    the id.  For an id that does not fit, binding it raises
    OverflowError, no page is returned and nothing is logged.  In every
    case one statement has been run and the store is as it was. *)
Theorem post_shows_row_or_404 (post_id : Z) (w : World) (rows : list Post) :
  serving w rows ->
  (in_int64 post_id ->
   (forall p, p ∈ rows -> p_id p = post_id -> NoDup (p_id <$> rows) ->
      post post_id w =
        (Return (post_page p),
         logged INFO (retrieved_line p)
           (after_query "SELECT * FROM posts WHERE id = ?" [VInt post_id] w))
      /\ status_code (post_page p) = 200)
   /\ ((forall p, p ∈ rows -> p_id p <> post_id) ->
       post post_id w =
         (Return not_found_page,
          logged INFO (missing_line post_id)
            (after_query "SELECT * FROM posts WHERE id = ?" [VInt post_id] w))
       /\ status_code not_found_page = 404))
  /\ (~ in_int64 post_id ->
      post post_id w =
        (Raise int_too_large,
         after_query "SELECT * FROM posts WHERE id = ?" [VInt post_id] w)).
Proof.
  intros (Hs & Hp & Hf). rewrite post_outcome, Hs, Hp, Hf. split.
  - intros Hid. rewrite decide_True by exact Hid. split.
    + intros p Hin Hp' Hnd.
      rewrite (first_with_id_present post_id rows p Hin Hp' Hnd). split; reflexivity.
    + intros Hno. rewrite (first_with_id_absent post_id rows Hno). split; reflexivity.
  - intros Hid. rewrite decide_False by exact Hid. reflexivity.
Qed.

Lemma post_shows_row_or_404_witness :
  (post 2 (boot store_ok)).1
    = Return (post_page {| p_id := 2; p_title := VText "Second"; p_content := VText "two" |})
  /\ (post 7 (boot store_ok)).1 = Return not_found_page
  /\ (post (2 ^ 63) (boot store_ok)).1 = Raise int_too_large.
Proof.
  pose proof (post_shows_row_or_404 2 (boot store_ok) two_posts
                (conj eq_refl (conj eq_refl eq_refl))) as (H2 & _).
  pose proof (post_shows_row_or_404 7 (boot store_ok) two_posts
                (conj eq_refl (conj eq_refl eq_refl))) as (H7 & _).
  pose proof (post_shows_row_or_404 (2 ^ 63) (boot store_ok) two_posts
                (conj eq_refl (conj eq_refl eq_refl))) as (_ & H63).
  split; [| split].
  - rewrite (proj1 (proj1 (H2 ltac:(unfold in_int64; lia))
                      {| p_id := 2; p_title := VText "Second"; p_content := VText "two" |}
                      ltac:(right; left) eq_refl
                      ltac:(apply (bool_decide_unpack _); vm_compute; exact I))).
    reflexivity.
  - rewrite (proj1 (proj2 (H7 ltac:(unfold in_int64; lia))
                      ltac:(intros p Hp; unfold two_posts in Hp;
                            apply elem_of_cons in Hp as [-> | Hp]; [simpl; lia |];
                            apply elem_of_cons in Hp as [-> | Hp]; [simpl; lia |];
                            inversion Hp))).
    reflexivity.
  - rewrite (H63 ltac:(unfold in_int64; lia)). reflexivity.
Defined.

(** X2: the list view, on a store in working order (it opens, it
    holds the posts table, no fault strikes): [index] returns the page [index.html] with every row of the
    table, in table order, each as a row addressable by name, with
    status 200 (an empty table gives an empty list); one statement has
    been run, without parameters, and the store is as it was. *)
Theorem index_lists_every_row (w : World) (rows : list Post) :
  serving w rows ->
  index w =
    (Return (Html (render_template "index.html" [("posts", ARows (named <$> rows))])),
     after_query "SELECT * FROM posts" [] w)
  /\ status_code (Html (render_template "index.html" [("posts", ARows (named <$> rows))])) = 200
  /\ (forall i p, rows !! i = Some p -> (named <$> rows) !! i = Some (named p)).
Proof.
  intros (Hs & Hp & Hf). rewrite index_outcome, Hs, Hp, Hf. split; [reflexivity |].
  split; [reflexivity |].
  intros i p Hi. rewrite list_lookup_fmap, Hi. reflexivity.
Qed.

Lemma index_lists_every_row_witness :
  (index (boot store_ok)).1
    = Return (Html (render_template "index.html" [("posts", ARows (named <$> two_posts))])).
Proof.
  rewrite (proj1 (index_lists_every_row (boot store_ok) two_posts (conj eq_refl (conj eq_refl eq_refl)))).
  reflexivity.
Defined.

(** X3: [create] writes only for a complete form.  A request whose
    method is not POST gets the form view and leaves the whole process
    state untouched, whatever its form holds or lacks; and whenever
    [create] hands a statement to sqlite3 or changes the store, the
    request was a POST carrying a non-empty title and a content. *)
Theorem create_writes_only_for_complete_post (request : Request) (w : World) :
  (method request <> "POST" -> create request w = (Return form_page, w))
  /\ (statements (create request w).2 <> statements w
      \/ store (create request w).2 <> store w ->
      method request = "POST"
      /\ exists title content,
           form request !! "title" = Some title /\ title <> EmptyString
           /\ form request !! "content" = Some content).
Proof.
  rewrite create_outcome. split.
  - intros Hm. rewrite decide_False by exact Hm. reflexivity.
  - case_decide as Hm; [| simpl; intros [H | H]; congruence].
    destruct (form request !! "title") as [title |]; [| simpl; intros [H | H]; congruence].
    destruct (form request !! "content") as [content |];
      [| simpl; intros [H | H]; congruence].
    case_decide as He; [simpl; intros [H | H]; congruence |].
    intros _. split; [exact Hm |]. exists title, content. auto.
Qed.

Lemma create_writes_only_for_complete_post_witness :
  create {| method := "GET"; form := ∅ |} (boot store_ok) = (Return form_page, boot store_ok)
  /\ (method (post_form "Hello" "World") = "POST"
      /\ exists title content,
           form (post_form "Hello" "World") !! "title" = Some title /\ title <> EmptyString
           /\ form (post_form "Hello" "World") !! "content" = Some content).
Proof.
  split.
  - apply (proj1 (create_writes_only_for_complete_post
                    {| method := "GET"; form := ∅ |} (boot store_ok))).
    discriminate.
  - apply (proj2 (create_writes_only_for_complete_post
                    (post_form "Hello" "World") (boot store_ok))).
    left. vm_compute. discriminate.
Defined.

(** X4: a complete POST to [create] on a store that opens without the
    posts table: the insert raises the error of the missing table and
    nothing catches it; the statement has been counted, the connection
    is closed, nothing is committed, and no creation is logged. *)
Theorem create_fails_without_posts_table (request : Request) (w : World)
    (title content : string) :
  method request = "POST" ->
  form request !! "title" = Some title ->
  title <> EmptyString ->
  form request !! "content" = Some content ->
  unreachable (store w) = None ->
  table w = None ->
  let w' := (create request w).2 in
  (create request w).1 = Raise no_such_table
  /\ store w' = store w
  /\ logs w' = logs w
  /\ db_connection_count (db w') = db_connection_count (db w) + 1
  /\ is_open (length (conns w)) w' = false.
Proof.
  intros Hm Ht Hne Hc Hs Hp. unfold table in Hp. cbv zeta.
  rewrite create_outcome, decide_True, Ht, Hc, decide_False, Hs, Hp by assumption.
  simpl. repeat split.
  unfold is_open. simpl. rewrite lookup_last. reflexivity.
Qed.

Lemma create_fails_without_posts_table_witness :
  (create (post_form "Hello" "World") (boot store_no_table)).1 = Raise no_such_table
  /\ store (create (post_form "Hello" "World") (boot store_no_table)).2 = store_no_table.
Proof.
  pose proof (create_fails_without_posts_table (post_form "Hello" "World")
                (boot store_no_table) "Hello" "World" eq_refl eq_refl
                ltac:(discriminate) eq_refl eq_refl eq_refl) as H.
  cbv zeta in H. destruct H as (Hr & Hst & _). split; [exact Hr | exact Hst].
Defined.



(** X6: when the store cannot be opened, no operation gets as far as a
    statement.  [get_post], [get_post_count], [index], [post],
    [healthz], [metrics_endpoint] and a complete POST to [create] all
    end with the exception of the [finally] clause, and the process
    state, counter included, is exactly as before. *)
Theorem unreachable_store_runs_nothing (post_id : Z) (request : Request) (w : World)
    (e : Exn) (title content : string) :
  unreachable (store w) = Some e ->
  method request = "POST" ->
  form request !! "title" = Some title ->
  title <> EmptyString ->
  form request !! "content" = Some content ->
  get_post post_id w = (Raise (connect_failure e), w)
  /\ get_post_count w = (Raise (connect_failure e), w)
  /\ index w = (Raise (connect_failure e), w)
  /\ post post_id w = (Raise (connect_failure e), w)
  /\ healthz w = (Raise (connect_failure e), w)
  /\ metrics_endpoint w = (Raise (connect_failure e), w)
  /\ create request w = (Raise (connect_failure e), w).
Proof.
  intros Hs Hm Ht Hne Hc.
  rewrite get_post_outcome, get_post_count_outcome, index_outcome, post_outcome,
    metrics_endpoint_outcome, healthz_outcome, create_outcome.
  rewrite decide_True, Ht, Hc, decide_False, Hs by assumption.
  repeat split.
Qed.

Lemma unreachable_store_runs_nothing_witness :
  index (boot store_unreachable) = (Raise (connect_failure unable_to_open), boot store_unreachable)
  /\ create (post_form "Hello" "World") (boot store_unreachable)
     = (Raise (connect_failure unable_to_open), boot store_unreachable).
Proof.
  pose proof (unreachable_store_runs_nothing 1 (post_form "Hello" "World")
                (boot store_unreachable) unable_to_open "Hello" "World"
                eq_refl eq_refl eq_refl ltac:(discriminate) eq_refl)
    as (_ & _ & Hi & _ & _ & _ & Hc).
  split; [exact Hi | exact Hc].
Defined.

(** X7: no request leaves a connection open.  Serving any list of
    requests, whatever each of them returns or raises, leaves every
    connection handle as open or closed as it was before; so in a
    process that has served requests since it started, no connection is
    open. *)
Theorem no_connection_stays_open (rs : list Route) :
  (forall w conn, is_open conn (serve_all rs w) = is_open conn w)
  /\ (forall s conn, is_open conn (serve_all rs (boot s)) = false).
Proof.
  split.
  - intros w conn. apply serve_all_is_open.
  - intros s conn. rewrite serve_all_is_open. unfold is_open. simpl.
    destruct conn; reflexivity.
Qed.

(** X8: what [create] stores, [get_post] finds.  After a complete POST
    on a store in working order, [get_post] of the id given to the new
    row returns that row, with the title and the content of the form
    (unless that id does not fit 64 bits, which binding refuses);
    [get_post] of any other id returns what it returned before the
    request. *)
Theorem created_post_is_found (request : Request) (w : World) (rows : list Post)
    (title content : string) :
  method request = "POST" ->
  form request !! "title" = Some title ->
  title <> EmptyString ->
  form request !! "content" = Some content ->
  serving w rows ->
  let w' := (create request w).2 in
  let new_id := fresh_id rows (seq (committed (store w))) in
  (get_post new_id w').1
    = (if decide (in_int64 new_id) then
         Return (Some (NamedRow [("id", VInt new_id); ("title", VText title);
                                 ("content", VText content)]))
       else Raise int_too_large)
  /\ (forall post_id, post_id <> new_id -> (get_post post_id w').1 = (get_post post_id w).1).
Proof.
  intros Hm Ht Hne Hc Hw. cbv zeta.
  rewrite (create_valid request w rows title content Hm Ht Hne Hc Hw).
  destruct Hw as (Hs & Hp & Hf).
  assert (forall p, p ∈ rows -> p_id p < p_id (created (committed (store w)) rows title content))
    as Hlt by (intros p Hin; apply fresh_id_above, Hin).
  split.
  - rewrite get_post_outcome. simpl. rewrite Hs, Hf.
    rewrite (first_with_id_grown _ rows _ Hlt).
    change (p_id (created (committed (store w)) rows title content))
      with (fresh_id rows (seq (committed (store w)))).
    rewrite (decide_True (P := fresh_id rows (seq (committed (store w)))
                              = fresh_id rows (seq (committed (store w))))) by reflexivity.
    destruct (decide (in_int64 (fresh_id rows (seq (committed (store w)))))); reflexivity.
  - intros post_id Hne'. rewrite !get_post_outcome. simpl. rewrite Hs, Hp, Hf.
    rewrite (first_with_id_grown _ rows _ Hlt).
    destruct (decide (post_id = p_id (created (committed (store w)) rows title content)))
      as [E | _]; [exfalso; apply Hne'; exact E | reflexivity].
Qed.

Lemma created_post_is_found_witness :
  (get_post 3 (create (post_form "Hello" "World") (boot store_ok)).2).1
    = Return (Some (NamedRow [("id", VInt 3); ("title", VText "Hello");
                              ("content", VText "World")]))
  /\ (get_post 1 (create (post_form "Hello" "World") (boot store_ok)).2).1
     = (get_post 1 (boot store_ok)).1.
Proof.
  pose proof (created_post_is_found (post_form "Hello" "World") (boot store_ok)
                two_posts "Hello" "World" eq_refl eq_refl
                ltac:(discriminate) eq_refl (conj eq_refl (conj eq_refl eq_refl))) as H.
  cbv zeta in H. destruct H as (Hn & Ho).
  split; [exact Hn | apply Ho; discriminate].
Defined.

(** X9: what [create] stores, [index] lists.  After a complete POST on
    a store in working order, the list view shows
    the rows it showed before, in the same order, followed by the new
    row with the title and the content of the form. *)
Theorem created_post_is_listed (request : Request) (w : World) (rows : list Post)
    (title content : string) :
  method request = "POST" ->
  form request !! "title" = Some title ->
  title <> EmptyString ->
  form request !! "content" = Some content ->
  serving w rows ->
  let w' := (create request w).2 in
  (index w).1 = Return (index_page rows)
  /\ (index w').1
     = Return (index_page
                 (rows ++ [{| p_id := fresh_id rows (seq (committed (store w)));
                              p_title := VText title; p_content := VText content |}])).
Proof.
  intros Hm Ht Hne Hc Hw. cbv zeta.
  rewrite (create_valid request w rows title content Hm Ht Hne Hc Hw).
  destruct Hw as (Hs & Hp & Hf). rewrite !index_outcome. simpl. rewrite Hs, Hp, Hf.
  split; reflexivity.
Qed.

Lemma created_post_is_listed_witness :
  (index (create (post_form "Hello" "World") (boot store_ok)).2).1
    = Return (index_page
                (two_posts ++ [{| p_id := 3; p_title := VText "Hello";
                                  p_content := VText "World" |}])).
Proof.
  pose proof (created_post_is_listed (post_form "Hello" "World") (boot store_ok)
                two_posts "Hello" "World" eq_refl eq_refl
                ltac:(discriminate) eq_refl (conj eq_refl (conj eq_refl eq_refl))) as H.
  cbv zeta in H. exact (proj2 H).
Defined.

(** X10: the views that read never write.  In every state of the
    process and of the store, [index], [post], [about], [healthz] and
    [metrics_endpoint], and the two repository reads under them, leave
    the store and the flash queue exactly as they were, whether they
    return or raise. *)
Theorem reading_views_leave_store_alone (post_id : Z) (w : World) :
  (store (index w).2 = store w /\ flashes (index w).2 = flashes w)
  /\ (store (post post_id w).2 = store w /\ flashes (post post_id w).2 = flashes w)
  /\ (store (about w).2 = store w /\ flashes (about w).2 = flashes w)
  /\ (store (healthz w).2 = store w /\ flashes (healthz w).2 = flashes w)
  /\ (store (metrics_endpoint w).2 = store w /\ flashes (metrics_endpoint w).2 = flashes w)
  /\ (store (get_post post_id w).2 = store w /\ flashes (get_post post_id w).2 = flashes w)
  /\ (store (get_post_count w).2 = store w /\ flashes (get_post_count w).2 = flashes w).
Proof.
  rewrite index_outcome, post_outcome, about_outcome, healthz_outcome,
    metrics_endpoint_outcome, get_post_outcome, get_post_count_outcome.
  outcome_cases; simpl; repeat split.
Qed.

(** X11: posts are never updated or deleted.  Over any list of
    requests, a posts table that exists keeps every row it had, in
    place and unchanged, and only grows at its end; a posts table that
    does not exist is never created. *)
Theorem posts_are_only_appended (rs : list Route) (w : World) :
  (forall rows, table w = Some rows ->
     exists more, table (serve_all rs w) = Some (rows ++ more)
                  /\ (forall i p, rows !! i = Some p ->
                        (rows ++ more) !! i = Some p))
  /\ (table w = None -> table (serve_all rs w) = None).
Proof.
  split.
  - intros rows Ht. destruct (serve_all_table rs w rows Ht) as (more & Hm & _).
    exists more. split; [exact Hm |].
    intros i p Hi. apply lookup_app_l_Some, Hi.
  - apply serve_all_no_table.
Qed.

Lemma posts_are_only_appended_witness :
  (exists more,
     table (serve_all [ANY_create (post_form "Hello" "World"); GET_index;
                       ANY_create (post_form EmptyString "x")] (boot store_ok))
     = Some (two_posts ++ more)
     /\ (forall i p, two_posts !! i = Some p -> (two_posts ++ more) !! i = Some p))
  /\ table (serve_all [ANY_create (post_form "Hello" "World")] (boot store_no_table)) = None.
Proof.
  split.
  - apply (proj1 (posts_are_only_appended _ (boot store_ok)) two_posts). reflexivity.
  - apply (proj2 (posts_are_only_appended _ (boot store_no_table))). reflexivity.
Defined.

(** X12: the ids of the posts stay distinct.  If no two rows of the
    posts table share an id, then after any list of requests no two
    rows do. *)
Theorem post_ids_stay_distinct (rs : list Route) (w : World) (rows : list Post) :
  table w = Some rows ->
  NoDup (p_id <$> rows) ->
  exists rows', table (serve_all rs w) = Some rows' /\ NoDup (p_id <$> rows').
Proof.
  intros Ht Hnd. destruct (serve_all_table rs w rows Ht) as (more & Hm & _ & Hn).
  exists (rows ++ more). split; [exact Hm | exact (Hn Hnd)].
Qed.

Lemma post_ids_stay_distinct_witness :
  exists rows',
    table (serve_all [ANY_create (post_form "Hello" "World");
                      ANY_create (post_form "Again" "World")] (boot store_ok)) = Some rows'
    /\ NoDup (p_id <$> rows').
Proof.
  apply (post_ids_stay_distinct _ (boot store_ok) two_posts).
  - reflexivity.
  - apply (bool_decide_unpack _). vm_compute. exact I.
Defined.

(** X13: the application stores no post without a title.  Every row
    that any list of requests adds to the posts table has a title that
    is a non-empty text; so if every row had one before, every row has
    one after. *)
Theorem stored_titles_are_not_empty (rs : list Route) (w : World) (rows : list Post) :
  table w = Some rows ->
  exists more,
    table (serve_all rs w) = Some (rows ++ more)
    /\ Forall titled more
    /\ (Forall titled rows -> Forall titled (rows ++ more)).
Proof.
  intros Ht. destruct (serve_all_table rs w rows Ht) as (more & Hm & Hf & _).
  exists more. split; [exact Hm |]. split; [exact Hf |].
  intros Hr. apply Forall_app. split; assumption.
Qed.

Lemma stored_titles_are_not_empty_witness :
  exists more,
    table (serve_all [ANY_create (post_form "Hello" "World");
                      ANY_create (post_form EmptyString "World")] (boot store_ok))
    = Some (two_posts ++ more)
    /\ Forall titled more
    /\ (Forall titled two_posts -> Forall titled (two_posts ++ more)).
Proof.
  apply (stored_titles_are_not_empty _ (boot store_ok) two_posts). reflexivity.
Defined.

(** X14: what [/metrics] reports after a run.  In a process that has
    served any list of requests since it started, on a store that now
    is in working order, [metrics_endpoint] answers 200
    with, as [db_connection_count], the number of statements handed to
    sqlite3 since the start plus its own count query and, as
    [post_count], the number of rows of the table. *)
Theorem metrics_report_after_requests (s : Store) (rs : list Route) (rows : list Post) :
  let w := serve_all rs (boot s) in
  serving w rows ->
  (metrics_endpoint w).1 =
    Return (ResponseClass
              (metrics_body (Z.of_nat (length (statements w)) + 1) (Z.of_nat (length rows)))
              200 "application/json").
Proof.
  intros w (Hs & Hp & Hf). rewrite metrics_endpoint_outcome, Hs, Hp, Hf. simpl.
  pose proof (serve_all_counter_exact rs (boot s) eq_refl) as Hc.
  fold w in Hc. unfold counter_exact in Hc. rewrite Hc. reflexivity.
Qed.

Lemma metrics_report_after_requests_witness :
  (metrics_endpoint
     (serve_all [GET_index; ANY_create (post_form "Hello" "World"); GET_about]
        (boot store_ok))).1
  = Return (ResponseClass (metrics_body 3 3) 200 "application/json").
Proof.
  apply (metrics_report_after_requests store_ok
           [GET_index; ANY_create (post_form "Hello" "World"); GET_about]
           (two_posts ++ [{| p_id := 3; p_title := VText "Hello";
                             p_content := VText "World" |}])).
  repeat split; vm_compute; reflexivity.
Defined.

(** X15: one statement for each view that queries.  On a store that
    opens, whether or not it holds the posts table, [index], [post],
    [healthz] and [metrics_endpoint] each hand exactly one statement to
    [execute], the same text whatever the table holds, and the counter
    goes up by one; [about] hands none and leaves the counter alone. *)
Theorem each_querying_view_runs_one_statement (post_id : Z) (w : World) :
  unreachable (store w) = None ->
  (statements (index w).2 = statements w ++ [("SELECT * FROM posts", [])]
   /\ db_connection_count (db (index w).2) = db_connection_count (db w) + 1)
  /\ (statements (post post_id w).2
        = statements w ++ [("SELECT * FROM posts WHERE id = ?", [VInt post_id])]
      /\ db_connection_count (db (post post_id w).2) = db_connection_count (db w) + 1)
  /\ (statements (healthz w).2 = statements w ++ [("SELECT 1 FROM posts LIMIT 1", [])]
      /\ db_connection_count (db (healthz w).2) = db_connection_count (db w) + 1)
  /\ (statements (metrics_endpoint w).2 = statements w ++ [("SELECT COUNT(*) FROM posts", [])]
      /\ db_connection_count (db (metrics_endpoint w).2) = db_connection_count (db w) + 1)
  /\ (statements (about w).2 = statements w
      /\ db_connection_count (db (about w).2) = db_connection_count (db w)).
Proof.
  intros Hs.
  rewrite index_outcome, post_outcome, about_outcome, healthz_outcome,
    metrics_endpoint_outcome, Hs.
  outcome_cases; simpl; repeat split.
Qed.

Lemma each_querying_view_runs_one_statement_witness :
  statements (index (boot store_no_table)).2 = [("SELECT * FROM posts", [])]
  /\ db_connection_count (db (healthz (boot store_ok)).2) = 1.
Proof.
  split.
  - apply (proj1 (proj1 (each_querying_view_runs_one_statement 1 (boot store_no_table)
                           eq_refl))).
  - apply (proj2 (proj1 (proj2 (proj2 (each_querying_view_runs_one_statement 1
                                         (boot store_ok) eq_refl))))).
Defined.


(** X17: the connection of a [with] block is closed on every way out.
    On a store that opens, whatever the body of the block does, the
    connection handed to it is open when the body starts, the block
    ends the way the body ended (by running to its end, by [return],
    or by raising), and in the state it leaves that connection is
    closed. *)
Theorem connection_closed_on_every_exit {R A} (body : Connection -> Block R A) (w : World) :
  unreachable (store w) = None ->
  let conn := length (conns w) in
  is_open conn (entered w) = true
  /\ (forall flow w', body conn (entered w) = (flow, w') ->
      get_db_connection body w = (flow, closed conn w'))
  /\ is_open conn (get_db_connection body w).2 = false.
Proof.
  intros Hs. cbv zeta. rewrite get_db_connection_reachable by exact Hs.
  split; [| split].
  - unfold is_open. rewrite lookup_entered. reflexivity.
  - intros flow w' Hb. rewrite Hb. reflexivity.
  - apply is_open_closed.
Qed.

(** The three ways out of a block, on a store that opens. *)
Lemma connection_closed_on_every_exit_witness :
  get_db_connection (R := Z) (fun conn => pure tt) (boot store_ok)
    = (Next tt, closed 0 (entered (boot store_ok)))
  /\ get_db_connection (R := Z) (A := unit) (fun conn => return_ 7) (boot store_ok)
     = (Return 7, closed 0 (entered (boot store_ok)))
  /\ get_db_connection (R := Z) (A := unit) (fun conn => raise closed_database) (boot store_ok)
     = (Raise closed_database, closed 0 (entered (boot store_ok))).
Proof.
  split; [| split].
  - apply (proj1 (proj2 (connection_closed_on_every_exit (fun conn => pure tt)
                           (boot store_ok) eq_refl))).
    reflexivity.
  - apply (proj1 (proj2 (connection_closed_on_every_exit (fun conn => return_ 7)
                           (boot store_ok) eq_refl))).
    reflexivity.
  - apply (proj1 (proj2 (connection_closed_on_every_exit (fun conn => raise closed_database)
                           (boot store_ok) eq_refl))).
    reflexivity.
Defined.
